(** * Samadhan: rate-limited execution and complaint priority scoring

    A shallow embedding of [RateLimiter], [PriorityScorer] and the
    [GeminiConfig] client that composes them, from [src/gemini_config.py],
    with the properties of the specification stated and settled against
    it, and further properties read off the code.

    Conventions of the embedding.
    - A Python [dict] with string keys is a [gmap string pyval].
    - Python values that reach the scorer are the constructors of [pyval];
      floats are left out of the value universe, so every score is an
      integer ([Z]).
    - Instants, time differences and sleep lengths are rational numbers of
      seconds ([Q]); every microsecond reading of [datetime] is such a
      number.
    - The limiter runs in a [world] that carries the clock and the events
      one thread produces.  The clock advances while the thread sleeps and
      between calls; reading it takes no time.
    - A loop that may wait for ever takes a bound on its iterations and
      answers [Diverge] when the bound runs out.
    - A raised exception is the [Raise] branch of [result]. *)

From Stdlib Require Import ZArith QArith Qminmax Qround Lqa Lia.
From Stdlib Require Import String Ascii List.
From stdpp Require Import gmap strings list fin_maps sorting.

Set Warnings "-register-all".

Open Scope Z_scope.

(* ===================================================================== *)
(** * Python values, exceptions and results *)
(* ===================================================================== *)

Inductive pyval : Type :=
  | VNone
  | VBool (b : bool)
  | VInt (n : Z)
  | VStr (s : string)
  | VDict (d : gmap string pyval).

(** An exception object: its class name and what [str(e)] returns. *)
Record exn : Type := mk_exn { exn_class : string; exn_msg : string }.

Definition AttributeError (msg : string) : exn := mk_exn "AttributeError" msg.
Definition TypeError (msg : string) : exn := mk_exn "TypeError" msg.
Definition ValueError (msg : string) : exn := mk_exn "ValueError" msg.

Inductive result (A : Type) : Type :=
  | Ok (a : A)
  | Raise (e : exn).
Arguments Ok {A} a.
Arguments Raise {A} e.

Definition rbind {A B : Type} (r : result A) (k : A -> result B) : result B :=
  match r with
  | Ok a => k a
  | Raise e => Raise e
  end.

Notation "'let*' x ':=' r 'in' k" := (rbind r (fun x => k))
  (at level 10, x name, r at level 100, k at level 200, only parsing).

Definition is_Ok {A : Type} (r : result A) : Prop :=
  match r with Ok _ => True | Raise _ => False end.

(** [[f(x) for x in xs]]: left to right, the first exception escapes. *)
Fixpoint list_comprehension {A B : Type} (f : A -> result B) (xs : list A)
  : result (list B) :=
  match xs with
  | [] => Ok []
  | x :: rest =>
      let* y := f x in
      let* ys := list_comprehension f rest in
      Ok (y :: ys)
  end.

(* ===================================================================== *)
(** * String operations used by the source *)
(* ===================================================================== *)

Module PyStr.

(** [c.lower()] on one character (the ASCII letters). *)
Definition lower_ascii (c : ascii) : ascii :=
  let n := nat_of_ascii c in
  if ((65 <=? n) && (n <=? 90))%nat then ascii_of_nat (n + 32) else c.

(** [s.lower()]. *)
Fixpoint lower (s : string) : string :=
  match s with
  | EmptyString => EmptyString
  | String c rest => String (lower_ascii c) (lower rest)
  end.

(** [s.replace(old, new)] for a one-character [old]. *)
Fixpoint replace_char (old : ascii) (new : string) (s : string) : string :=
  match s with
  | EmptyString => EmptyString
  | String c rest =>
      if Ascii.eqb c old
      then (new ++ replace_char old new rest)%string
      else String c (replace_char old new rest)
  end.

(** [needle in hay]. *)
Fixpoint contains (needle hay : string) : bool :=
  String.prefix needle hay ||
  match hay with
  | EmptyString => false
  | String _ rest => contains needle rest
  end.

(** [getattr(v, name)] for the two [str] methods the scorer calls: any
    value that is not a [str] has neither. *)
Definition as_str (method : string) (v : pyval) : result string :=
  match v with
  | VStr s => Ok s
  | _ => Raise (AttributeError ("object has no attribute '" ++ method ++ "'"))
  end.

End PyStr.

(* ===================================================================== *)
(** * Time *)
(* ===================================================================== *)

Module PyTime.

Definition Qltb (a b : Q) : bool :=
  match (a ?= b)%Q with Lt => true | _ => false end.

(** [timedelta(minutes=1)], [timedelta(hours=1)], one day, in seconds. *)
Definition one_minute : Q := 60.
Definition one_hour : Q := 3600.
Definition one_day : Q := 86400.

(** A [datetime]: the wall-clock reading in its own zone, in seconds,
    and its [tzinfo] (a fixed UTC offset in seconds, or [None] for a
    naive datetime). *)
Record datetime : Type := mk_datetime { wall : Q; tzinfo : option Q }.

(** What the scorer reads from the system clock: the UTC instant, and
    the local zone's offset (used for naive datetimes). *)
Record clock : Type := mk_clock { utc_now : Q; local_offset : Q }.

(** [datetime.now(tz)]. *)
Definition datetime_now (clk : clock) (tz : option Q) : datetime :=
  match tz with
  | Some off => mk_datetime (utc_now clk + off)%Q (Some off)
  | None => mk_datetime (utc_now clk + local_offset clk)%Q None
  end.

(** [a - b] on datetimes: a [timedelta] in seconds; mixing a naive and
    an aware operand raises [TypeError]. *)
Definition datetime_sub (a b : datetime) : result Q :=
  match tzinfo a, tzinfo b with
  | Some oa, Some ob => Ok ((wall a - oa) - (wall b - ob))%Q
  | None, None => Ok (wall a - wall b)%Q
  | _, _ => Raise (TypeError "can't subtract offset-naive and offset-aware datetimes")
  end.

(** [td.days]: a timedelta is normalised with a non-negative seconds
    part, so [days] is the floor. *)
Definition days (td : Q) : Z := Qfloor (td / one_day)%Q.

End PyTime.

Export PyTime.

(* ===================================================================== *)
(** * PriorityScorer *)
(* ===================================================================== *)

Module PriorityScorer.
Import PyStr.

(** Truth value of an object, as [if x] and [x and y] test it. *)
Definition truthy (v : pyval) : bool :=
  match v with
  | VNone => false
  | VBool b => b
  | VInt n => negb (n =? 0)
  | VStr s => negb (String.eqb s "")
  | VDict d => negb (bool_decide (d = ∅))
  end.

(** [v > 0]: defined on numbers ([bool] is a subclass of [int]); ordering
    [None], a [str] or a [dict] against an [int] raises [TypeError]. *)
Definition gt_zero (v : pyval) : result bool :=
  match v with
  | VInt n => Ok (0 <? n)
  | VBool b => Ok (0 <? Z.b2z b)
  | _ => Raise (TypeError "'>' not supported between these instances and 'int'")
  end.

(** [v * k] for an integer [k], on the values that passed [gt_zero]. *)
Definition times (v : pyval) (k : Z) : result Z :=
  match v with
  | VInt n => Ok (n * k)
  | VBool b => Ok (Z.b2z b * k)
  | _ => Raise (TypeError "unsupported operand type(s) for *")
  end.

Definition PRIORITY_WEIGHTS : gmap string Z :=
  <["urgent" := 100]> (<["high" := 75]> (<["medium" := 50]> (<["low" := 25]> ∅))).

Definition STATUS_WEIGHTS : gmap string Z :=
  <["escalated" := 50]> (<["open" := 30]> (<["pending" := 20]> (<["resolved" := 0]> ∅))).

Definition AGE_MULTIPLIER : Z := 5.
Definition AGE_MAX : Z := 50.
Definition POPULATION_MULTIPLIER : Z := 2.
Definition POPULATION_MAX : Z := 40.

(** [d.get(key, default)]. *)
Definition dict_get {V : Type} (d : gmap string V) (key : string) (default : V) : V :=
  match d !! key with
  | Some v => v
  | None => default
  end.

Section Scorer.

(** [datetime.fromisoformat]: the standard library's parser, [None] where
    it raises [ValueError]. *)
Variable fromisoformat : string -> option datetime.

(** The system clock at the time of the call. *)
Variable clk : clock.

(** The body of the [try] block of [calculate_age_score]. *)
Definition age_score_try (created_at : pyval) : result Z :=
  let* s := as_str "replace" created_at in
  let* created_date :=
    match fromisoformat (replace_char "Z" "+00:00" s) with
    | Some d => Ok d
    | None => Raise (ValueError "Invalid isoformat string")
    end in
  let* delta := datetime_sub (datetime_now clk (tzinfo created_date)) created_date in
  let age_days := days delta in
  let age_score := Z.min (age_days * AGE_MULTIPLIER) AGE_MAX in
  Ok age_score.

(** [calculate_age_score]: [except Exception: return 0]. *)
Definition calculate_age_score (created_at : pyval) : Z :=
  match age_score_try created_at with
  | Ok age_score => age_score
  | Raise _ => 0
  end.

Definition calculate_population_score (affected_people : pyval) : result Z :=
  let* positive :=
    if truthy affected_people then gt_zero affected_people else Ok false in
  if positive
  then let* scaled := times affected_people POPULATION_MULTIPLIER in
       Ok (Z.min scaled POPULATION_MAX)
  else Ok 0.

Definition score_complaint (complaint : gmap string pyval)
  : result (gmap string pyval) :=
  let* priority := as_str "lower" (dict_get complaint "priority" (VStr "low")) in
  let priority_weight := dict_get PRIORITY_WEIGHTS (lower priority) 0 in
  let* status := as_str "lower" (dict_get complaint "status" (VStr "pending")) in
  let status_weight := dict_get STATUS_WEIGHTS (lower status) 0 in
  let age_score := calculate_age_score (dict_get complaint "created_at" (VStr "")) in
  let* population_score :=
    calculate_population_score (dict_get complaint "affected_people" (VInt 0)) in
  let total_score := priority_weight + status_weight + age_score + population_score in
  Ok (<["priority_breakdown" :=
          VDict (<["priority_level" := VInt priority_weight]>
                (<["status" := VInt status_weight]>
                (<["age" := VInt age_score]>
                (<["population_impact" := VInt population_score]>
                (<["total" := VInt total_score]> ∅)))))]>
      (<["priority_score" := VInt total_score]> complaint)).

(** The sort key [lambda x: x.get('priority_score', 0)].  Every element
    that reaches the sort was built by [score_complaint], whose
    ['priority_score'] is an [int]. *)
Definition sort_key (x : gmap string pyval) : Z :=
  match dict_get x "priority_score" (VInt 0) with
  | VInt n => n
  | VBool b => Z.b2z b
  | _ => 0
  end.

(** [sorted(xs, key=key, reverse=True)]: a stable sort, highest key first;
    elements with equal keys keep their input order. *)
Fixpoint insert_desc {A : Type} (key : A -> Z) (x : A) (sorted : list A) : list A :=
  match sorted with
  | [] => [x]
  | y :: rest =>
      if key x <? key y
      then y :: insert_desc key x rest
      else x :: sorted
  end.

Fixpoint sorted_reverse {A : Type} (key : A -> Z) (xs : list A) : list A :=
  match xs with
  | [] => []
  | x :: rest => insert_desc key x (sorted_reverse key rest)
  end.

Definition score_and_sort_complaints (complaints : list (gmap string pyval))
  : result (list (gmap string pyval)) :=
  let* scored := list_comprehension score_complaint complaints in
  Ok (sorted_reverse sort_key scored).

End Scorer.

Definition get_priority_category (score : Z) : string :=
  if 200 <=? score then "CRITICAL"
  else if 150 <=? score then "HIGH"
  else if 100 <=? score then "MEDIUM"
  else if 50 <=? score then "LOW"
  else "MINIMAL".

(** Reading a scored complaint back. *)
Definition priority_score (scored : gmap string pyval) : option pyval :=
  scored !! "priority_score".

Definition breakdown (scored : gmap string pyval) (part : string) : option pyval :=
  match scored !! "priority_breakdown" with
  | Some (VDict b) => b !! part
  | _ => None
  end.

(** ** Vocabulary of the properties *)

(** A value on which [calculate_population_score] does not raise: a
    number, or anything falsy. *)
Definition count_like (v : pyval) : Prop :=
  match v with
  | VInt _ | VBool _ => True
  | _ => truthy v = false
  end.

(** A field that is absent or holds a [str]. *)
Definition str_or_absent (c : gmap string pyval) (key : string) : Prop :=
  match c !! key with
  | None | Some (VStr _) => True
  | Some _ => False
  end.

(** A complaint with exactly the four scored fields. *)
Definition complaint_of (priority status : string) (affected_people : Z)
  (created_at : string) : gmap string pyval :=
  <["priority" := VStr priority]>
  (<["status" := VStr status]>
  (<["affected_people" := VInt affected_people]>
  (<["created_at" := VStr created_at]> ∅))).

(** Seconds from [d] to now, read in the zone of [d]. *)
Definition seconds_since (clk : clock) (d : datetime) : Q :=
  match datetime_sub (datetime_now clk (tzinfo d)) d with
  | Ok td => td
  | Raise _ => 0%Q
  end.

Definition descending {A : Type} (key : A -> Z) (a b : A) : Prop := key b <= key a.

(** What [score_complaint] returns, given the four sub-scores. *)
Definition scored_as (c : gmap string pyval) (p st a po : Z) : gmap string pyval :=
  <["priority_breakdown" :=
      VDict (<["priority_level" := VInt p]>
            (<["status" := VInt st]>
            (<["age" := VInt a]>
            (<["population_impact" := VInt po]>
            (<["total" := VInt (p + st + a + po)]> ∅)))))]>
  (<["priority_score" := VInt (p + st + a + po)]> c).

End PriorityScorer.

(* ===================================================================== *)
(** * RateLimiter *)
(* ===================================================================== *)

Module RateLimiter.
Import PyStr.

(** The two [time.sleep] call sites. *)
Inductive sleeper : Type :=
  | Admission   (* in [wait_if_needed] *)
  | Backoff.    (* in [execute_with_retry] *)

(** What an observer of one thread sees, in order. *)
Inductive event : Type :=
  | EAcquire                              (* [self.lock] taken *)
  | ERelease                              (* [self.lock] given back *)
  | ESleep (site : sleeper) (seconds : Q) (* [time.sleep(seconds)] *)
  | EAdmitted (at_time : Q)               (* a request recorded in both windows *)
  | ECall (attempt : Z).                  (* the wrapped operation called *)

(** The fields of a [RateLimiter] object; the deques hold instants, oldest
    first; [lock_held] is the state of [self.lock]. *)
Record limiter : Type := mk_limiter {
  requests_per_minute : Z;
  requests_per_hour : Z;
  max_retries : Z;
  initial_retry_delay : Q;
  minute_requests : list Q;
  hour_requests : list Q;
  lock_held : bool
}.

(** The limiter together with the clock and the events so far.  Time
    passes while the thread sleeps. *)
Record world : Type := mk_world {
  self : limiter;
  clock : Q;
  trace : list event
}.

(** The outcome of running a method with a bound on loop iterations:
    it returned (or raised), or the bound ran out while it was waiting. *)
Inductive run (A : Type) : Type :=
  | Done (a : A) (w : world)
  | Diverge (w : world).
Arguments Done {A} a w.
Arguments Diverge {A} w.

Definition final {A : Type} (r : run A) : world :=
  match r with Done _ w => w | Diverge w => w end.

Definition set_self (w : world) (l : limiter) : world :=
  mk_world l (clock w) (trace w).

Definition log (e : event) (w : world) : world :=
  mk_world (self w) (clock w) (trace w ++ [e]).

Definition set_windows (l : limiter) (minute hour : list Q) : limiter :=
  mk_limiter (requests_per_minute l) (requests_per_hour l) (max_retries l)
             (initial_retry_delay l) minute hour (lock_held l).

Definition set_lock (l : limiter) (held : bool) : limiter :=
  mk_limiter (requests_per_minute l) (requests_per_hour l) (max_retries l)
             (initial_retry_delay l) (minute_requests l) (hour_requests l) held.

(** [__init__]: stores its arguments; the body has no [raise]. *)
Definition __init__ (requests_per_minute requests_per_hour max_retries : Z)
  (initial_retry_delay : Q) : result limiter :=
  Ok (mk_limiter requests_per_minute requests_per_hour max_retries
                 initial_retry_delay [] [] false).

(** [while q and q[0] < bound: q.popleft()]. *)
Fixpoint popleft_while_older (bound : Q) (q : list Q) : list Q :=
  match q with
  | [] => []
  | oldest :: rest =>
      if Qltb oldest bound then popleft_while_older bound rest else q
  end.

Definition _clean_old_requests (now : Q) (l : limiter) : limiter :=
  let minute_ago := (now - one_minute)%Q in
  let hour_ago := (now - one_hour)%Q in
  set_windows l (popleft_while_older minute_ago (minute_requests l))
                (popleft_while_older hour_ago (hour_requests l)).

Definition _can_make_request (w : world) : bool * world :=
  let now := clock w in
  let l := _clean_old_requests now (self w) in
  ((Z.of_nat (length (minute_requests l)) <? requests_per_minute l) &&
   (Z.of_nat (length (hour_requests l)) <? requests_per_hour l),
   set_self w l).

Definition _get_wait_time (w : world) : Q * world :=
  let now := clock w in
  let l := _clean_old_requests now (self w) in
  match minute_requests l with
  | [] => (0%Q, set_self w l)
  | oldest :: _ =>
      let oldest_minute := (oldest + one_minute)%Q in
      let wait_time := (oldest_minute - now)%Q in
      (Qmax 0 wait_time, set_self w l)
  end.

(** [time.sleep(seconds)]: a negative length raises [ValueError];
    otherwise the clock advances by [seconds]. *)
Definition time_sleep (site : sleeper) (seconds : Q) (w : world) : result world :=
  if Qltb seconds 0
  then Raise (ValueError "sleep length must be non-negative")
  else Ok (mk_world (self w) (clock w + seconds)%Q (trace w ++ [ESleep site seconds])).

(** The [while not self._can_make_request()] loop of [wait_if_needed],
    at most [fuel] tests of its condition. *)
Fixpoint wait_loop (fuel : nat) (w : world) : run (result unit) :=
  match fuel with
  | O => Diverge w
  | S fuel' =>
      let (can, w1) := _can_make_request w in
      if can then Done (Ok tt) w1
      else
        let (wait_time, w2) := _get_wait_time w1 in
        if Qltb 0 wait_time
        then
          match time_sleep Admission (wait_time + (1 # 10))%Q w2 with
          | Raise e => Done (Raise e) w2
          | Ok w3 =>
              wait_loop fuel' (set_self w3 (_clean_old_requests (clock w3) (self w3)))
          end
        else
          match time_sleep Admission (1 # 10)%Q w2 with
          | Raise e => Done (Raise e) w2
          | Ok w3 => wait_loop fuel' w3
          end
  end.

Definition acquire (w : world) : world :=
  log EAcquire (set_self w (set_lock (self w) true)).

Definition release (w : world) : world :=
  log ERelease (set_self w (set_lock (self w) false)).

(** [self.minute_requests.append(now); self.hour_requests.append(now)]. *)
Definition record_request (now : Q) (w : world) : world :=
  log (EAdmitted now)
      (set_self w (set_windows (self w) (minute_requests (self w) ++ [now])
                                        (hour_requests (self w) ++ [now]))).

(** [wait_if_needed]: the whole body runs inside [with self.lock:].
    [threading.Lock] is not re-entrant: taking a held lock never returns. *)
Definition wait_if_needed (fuel : nat) (w : world) : run (result unit) :=
  if lock_held (self w) then Diverge w
  else
    match wait_loop fuel (acquire w) with
    | Diverge w' => Diverge w'
    | Done (Raise e) w' => Done (Raise e) (release w')
    | Done (Ok _) w1 =>
        let now := clock w1 in
        Done (Ok tt) (release (record_request now w1))
    end.

(** ["429" in error_msg or "rate limit" in error_msg.lower()]. *)
Definition is_rate_limit (e : exn) : bool :=
  let error_msg := exn_msg e in
  contains "429" error_msg || contains "rate limit" (lower error_msg).

(** The [for attempt in range(self.max_retries + 1)] loop of
    [execute_with_retry].  [func attempt] is what the wrapped operation
    does when it is called during iteration [attempt]; [fuel] bounds each
    [wait_if_needed]. *)
Fixpoint retry_loop (fuel : nat) (func : Z -> result pyval) (attempts : list Z)
  (retry_delay : Q) (w : world) : run (result pyval) :=
  match attempts with
  | [] => Done (Ok VNone) w
  | attempt :: rest =>
      match wait_if_needed fuel w with
      | Diverge w' => Diverge w'
      | Done waited w1 =>
          let (outcome, w2) :=
            match waited with
            | Raise e => (Raise e, w1)
            | Ok _ => (func attempt, log (ECall attempt) w1)
            end in
          match outcome with
          | Ok result => Done (Ok result) w2
          | Raise e =>
              if is_rate_limit e && (attempt <? max_retries (self w2))
              then
                match time_sleep Backoff retry_delay w2 with
                | Raise e' => Done (Raise e') w2
                | Ok w3 => retry_loop fuel func rest (Qmin (retry_delay * 2) 60) w3
                end
              else Done (Raise e) w2
          end
      end
  end.

Definition execute_with_retry (fuel : nat) (func : Z -> result pyval) (w : world)
  : run (result pyval) :=
  let retry_delay := initial_retry_delay (self w) in
  retry_loop fuel func (seqZ 0 (max_retries (self w) + 1)) retry_delay w.

(** ** Reading a trace *)

(** The attempts at the wrapped operation, in order. *)
Fixpoint calls (tr : list event) : list Z :=
  match tr with
  | [] => []
  | ECall k :: rest => k :: calls rest
  | _ :: rest => calls rest
  end.

(** The lengths of the sleeps at one call site, in order. *)
Fixpoint sleeps (site : sleeper) (tr : list event) : list Q :=
  match tr with
  | [] => []
  | ESleep Admission d :: rest =>
      match site with Admission => d :: sleeps site rest | Backoff => sleeps site rest end
  | ESleep Backoff d :: rest =>
      match site with Backoff => d :: sleeps site rest | Admission => sleeps site rest end
  | _ :: rest => sleeps site rest
  end.

(** The instants recorded by admissions, in order. *)
Fixpoint admitted (tr : list event) : list Q :=
  match tr with
  | [] => []
  | EAdmitted t :: rest => t :: admitted rest
  | _ :: rest => admitted rest
  end.

(** For every sleep of the trace, whether the lock was held when it began;
    [held] is the state of the lock at the start of the trace. *)
Fixpoint lock_at_sleeps (held : bool) (tr : list event) : list bool :=
  match tr with
  | [] => []
  | EAcquire :: rest => lock_at_sleeps true rest
  | ERelease :: rest => lock_at_sleeps false rest
  | ESleep _ _ :: rest => held :: lock_at_sleeps held rest
  | _ :: rest => lock_at_sleeps held rest
  end.

(** How many of the instants [ts] lie in the trailing [span] seconds of [now]. *)
Definition count_within (span now : Q) (ts : list Q) : nat :=
  length (filter (fun t => Qle_bool (now - span) t = true) ts).

(** The delay before retry number [k]: the initial delay, doubled [k]
    times with the ceiling of 60 applied after each doubling. *)
Fixpoint backoff_schedule (first : Q) (k : nat) : list Q :=
  match k with
  | O => []
  | S k' => first :: backoff_schedule (Qmin (first * 2) 60) k'
  end.

(** Time passing between two calls on the limiter. *)
Definition elapse (seconds : Q) (w : world) : world :=
  mk_world (self w) (clock w + seconds)%Q (trace w).

(** The worlds a freshly constructed limiter can be in, after any
    sequence of completed [wait_if_needed] calls with time passing in
    between. *)
Inductive reachable (l0 : limiter) : world -> Prop :=
  | reach_init (t0 : Q) :
      minute_requests l0 = [] -> hour_requests l0 = [] -> lock_held l0 = false ->
      reachable l0 (mk_world l0 t0 [])
  | reach_elapse (w : world) (seconds : Q) :
      reachable l0 w -> (0 <= seconds)%Q -> reachable l0 (elapse seconds w)
  | reach_wait (w w' : world) (fuel : nat) :
      reachable l0 w -> wait_if_needed fuel w = Done (Ok tt) w' -> reachable l0 w'.

(** ** Vocabulary of the properties *)

(** The configuration of a limiter: what [__init__] was given. *)
Definition same_config (l l' : limiter) : Prop :=
  requests_per_minute l' = requests_per_minute l /\
  requests_per_hour l' = requests_per_hour l /\
  max_retries l' = max_retries l /\
  initial_retry_delay l' = initial_retry_delay l.

(** [w'] comes after [w] in a wait: time has passed, each window has lost
    a prefix of entries older than its span, the thread has only slept,
    and the configuration and the lock are as they were. *)
Record evolves (w w' : world) : Prop := mk_evolves {
  ev_config : same_config (self w) (self w');
  ev_lock : lock_held (self w') = lock_held (self w);
  ev_clock : (clock w <= clock w')%Q;
  ev_minute : exists dropped,
    minute_requests (self w) = dropped ++ minute_requests (self w') /\
    Forall (fun t => (t < clock w' - one_minute)%Q) dropped;
  ev_hour : exists dropped,
    hour_requests (self w) = dropped ++ hour_requests (self w') /\
    Forall (fun t => (t < clock w' - one_hour)%Q) dropped;
  ev_trace : exists ds,
    trace w' = trace w ++ map (ESleep Admission) ds
}.

(** No window holds an instant later than the clock, and the limits admit
    at least one request. *)
Record ready (w : world) : Prop := mk_ready {
  rd_minute_limit : 1 <= requests_per_minute (self w);
  rd_hour_limit : 1 <= requests_per_hour (self w);
  rd_lock : lock_held (self w) = false;
  rd_minute : Forall (fun t => (t <= clock w)%Q) (minute_requests (self w));
  rd_hour : Forall (fun t => (t <= clock w)%Q) (hour_requests (self w))
}.

(** Iterations of the wait loop that always suffice: ten per second of
    the longest span, and a last one. *)
Definition admission_fuel : nat := S (Z.to_nat 36001).

(** How a completed [wait_if_needed] relates the world before to the
    world after. *)
Record admission (w w' : world) : Prop := mk_admission {
  ad_config : same_config (self w) (self w');
  ad_lock : lock_held (self w') = false;
  ad_clock : (clock w <= clock w')%Q;
  ad_minute : exists dropped kept,
    minute_requests (self w) = dropped ++ kept /\
    minute_requests (self w') = kept ++ [clock w'] /\
    Forall (fun t => (t < clock w' - one_minute)%Q) dropped;
  ad_hour : exists dropped kept,
    hour_requests (self w) = dropped ++ kept /\
    hour_requests (self w') = kept ++ [clock w'] /\
    Forall (fun t => (t < clock w' - one_hour)%Q) dropped;
  ad_trace : exists ds,
    trace w' = trace w ++ EAcquire :: map (ESleep Admission) ds
                       ++ [EAdmitted (clock w'); ERelease];
  ad_minute_limit :
    Z.of_nat (length (minute_requests (self w'))) <= requests_per_minute (self w');
  ad_hour_limit :
    Z.of_nat (length (hour_requests (self w'))) <= requests_per_hour (self w')
}.

(** Every instant ever recorded is either still in the window or older
    than the window's span; no window holds an instant of the future. *)
Record history_inv (w : world) : Prop := mk_history_inv {
  hi_minute : exists old,
    admitted (trace w) = old ++ minute_requests (self w) /\
    Forall (fun t => (t < clock w - one_minute)%Q) old;
  hi_hour : exists old,
    admitted (trace w) = old ++ hour_requests (self w) /\
    Forall (fun t => (t < clock w - one_hour)%Q) old;
  hi_minute_past : Forall (fun t => (t <= clock w)%Q) (minute_requests (self w));
  hi_hour_past : Forall (fun t => (t <= clock w)%Q) (hour_requests (self w))
}.

End RateLimiter.

(* ===================================================================== *)
(** * An executable ISO-8601 reader *)
(* ===================================================================== *)

(** The scorer is parametric in [datetime.fromisoformat].  To run it on
    concrete complaints, [IsoFormat.fromisoformat] reads the layout
    [YYYY-MM-DD], optionally followed by [T] or a blank and [HH:MM:SS],
    optionally followed by a UTC offset [+HH:MM] or [-HH:MM]; Python's
    reader accepts each of these with the same result. *)
Module IsoFormat.

Definition digit (c : ascii) : option Z :=
  let n := nat_of_ascii c in
  if ((48 <=? n) && (n <=? 57))%nat then Some (Z.of_nat (n - 48)) else None.

(** Exactly [n] decimal digits. *)
Fixpoint number (n : nat) (acc : Z) (s : string) : option (Z * string) :=
  match n with
  | O => Some (acc, s)
  | S n' =>
      match s with
      | String c rest =>
          match digit c with
          | Some d => number n' (acc * 10 + d) rest
          | None => None
          end
      | EmptyString => None
      end
  end.

Definition expect (c : ascii) (s : string) : option string :=
  match s with
  | String c' rest => if Ascii.eqb c c' then Some rest else None
  | EmptyString => None
  end.

Definition is_leap (y : Z) : bool :=
  ((y mod 4 =? 0) && negb (y mod 100 =? 0)) || (y mod 400 =? 0).

Definition days_in_month (y m : Z) : Z :=
  if m =? 2 then (if is_leap y then 29 else 28)
  else if (m =? 4) || (m =? 6) || (m =? 9) || (m =? 11) then 30
  else 31.

(** Days from 1970-01-01 to the given date of the proleptic Gregorian
    calendar. *)
Definition days_from_civil (y m d : Z) : Z :=
  let y' := if m <=? 2 then y - 1 else y in
  let era := y' / 400 in
  let yoe := y' - era * 400 in
  let mp := if 2 <? m then m - 3 else m + 9 in
  let doy := (153 * mp + 2) / 5 + d - 1 in
  let doe := yoe * 365 + yoe / 4 - yoe / 100 + doy in
  era * 146097 + doe - 719468.

Definition date_part (s : string) : option (Z * string) :=
  '(y, s) ← number 4 0 s;
  s ← expect "-" s;
  '(m, s) ← number 2 0 s;
  s ← expect "-" s;
  '(d, s) ← number 2 0 s;
  if (1 <=? y) && (1 <=? m) && (m <=? 12) && (1 <=? d) && (d <=? days_in_month y m)
  then Some (days_from_civil y m d, s)
  else None.

Definition clock_part (s : string) : option (Z * string) :=
  '(h, s) ← number 2 0 s;
  s ← expect ":" s;
  '(mi, s) ← number 2 0 s;
  s ← expect ":" s;
  '(sec, s) ← number 2 0 s;
  if (h <=? 23) && (mi <=? 59) && (sec <=? 59)
  then Some (h * 3600 + mi * 60 + sec, s)
  else None.

Definition offset_part (s : string) : option (option Z) :=
  match s with
  | EmptyString => Some None
  | String sign s =>
      '(h, s) ← number 2 0 s;
      s ← expect ":" s;
      '(mi, s) ← number 2 0 s;
      let off := h * 3600 + mi * 60 in
      match s with
      | EmptyString =>
          if negb ((h <=? 23) && (mi <=? 59)) then None
          else if Ascii.eqb sign "+" then Some (Some off)
          else if Ascii.eqb sign "-" then Some (Some (- off))
          else None
      | _ => None
      end
  end.

Definition fromisoformat (s : string) : option datetime :=
  '(day, s) ← date_part s;
  match s with
  | EmptyString => Some (mk_datetime (inject_Z (day * 86400)) None)
  | String sep s =>
      if Ascii.eqb sep "T" || Ascii.eqb sep " " then
        '(secs, s) ← clock_part s;
        off ← offset_part s;
        Some (mk_datetime (inject_Z (day * 86400 + secs)) (inject_Z <$> off))
      else None
  end.

(** The clock of a machine on UTC at the instant written [s]. *)
Definition clock_at (s : string) : option clock :=
  d ← fromisoformat s;
  Some (mk_clock (wall d - default 0%Q (tzinfo d))%Q 0%Q).

End IsoFormat.

(* ===================================================================== *)
(** * GeminiConfig *)
(* ===================================================================== *)

(** The client class that composes the scorer and the limiter.  The
    remote service is a parameter: [ask model contents k] is what
    [self.client.models.generate_content(model=..., contents=...)]
    followed by [.text] gives on its [k]-th call within one
    [execute_with_retry], a value or a raised error. *)
Module GeminiConfig.
Import PyStr PriorityScorer RateLimiter.

(** The attributes [__init__] sets ([self.client] is the remote service). *)
Record config : Type := mk_config {
  api_key : string;
  model : string;
  rate_limiter : limiter
}.

Definition missing_key_message : string :=
  "GEMINI_API_KEY not found in environment variables. " ++
  "Please set it in your .env file or system environment.".

(** [__init__]: [os.getenv] gives [None] for an unset variable; [not
    self.api_key] holds for [None] and for the empty string.  The limiter
    is built with the default initial delay of one second. *)
Definition __init__ (environ : gmap string string)
  (requests_per_minute requests_per_hour max_retries : Z) : result config :=
  let api_key := environ !! "GEMINI_API_KEY" in
  match api_key with
  | None => Raise (ValueError missing_key_message)
  | Some key =>
      if String.eqb key "" then Raise (ValueError missing_key_message)
      else
        let* limiter := RateLimiter.__init__ requests_per_minute requests_per_hour
                                             max_retries 1 in
        Ok (mk_config key "gemini-1.5-flash" limiter)
  end.

(** [get_gemini_client]: the constructor with its default arguments. *)
Definition get_gemini_client (environ : gmap string string) : result config :=
  __init__ environ 30 1500 5.

(** [generate_content]: the call goes through the limiter; whatever
    escapes is raised again as a plain [Exception] around its message. *)
Definition generate_content (fuel : nat) (ask : string -> string -> Z -> result pyval)
  (model prompt : string) (w : world) : run (result pyval) :=
  let _generate := ask model prompt in
  match execute_with_retry fuel _generate w with
  | Done (Ok text) w' => Done (Ok text) w'
  | Done (Raise e) w' =>
      Done (Raise (mk_exn "Exception" ("Error generating content: " ++ exn_msg e))) w'
  | Diverge w' => Diverge w'
  end.

(** What [generate_content] raises when [e] escapes the retry loop. *)
Definition wrapped (e : exn) : exn :=
  mk_exn "Exception" ("Error generating content: " ++ exn_msg e).

(** [d[key]]. *)
Definition subscript (d : gmap string pyval) (key : string) : result pyval :=
  match d !! key with
  | Some v => Ok v
  | None => Raise (mk_exn "KeyError" key)
  end.

(** [get_priority_category] applied to a value read from a dict. *)
Definition category_of (score : pyval) : result string :=
  match score with
  | VInt n => Ok (get_priority_category n)
  | VBool b => Ok (get_priority_category (Z.b2z b))
  | _ => Raise (TypeError "'>=' not supported between these instances and 'int'")
  end.

(** [self.analyze_complaint]: the class body defines no method of this
    name (the statements that were meant to be its body, lines 452-469,
    follow the [return] of [generate_priority_action_plan]) and
    [__init__] sets no such attribute, so the lookup raises. *)
Definition no_analyze_complaint : exn :=
  AttributeError "'GeminiConfig' object has no attribute 'analyze_complaint'".

Definition self_analyze_complaint (complaint_text : pyval) : result pyval :=
  Raise no_analyze_complaint.

Section Analysis.
Variable fromisoformat : string -> option datetime.
Variable clk : PyTime.clock.

Definition analyze_complaint_with_priority (complaint : gmap string pyval)
  : result (gmap string pyval) :=
  let* scored_complaint := score_complaint fromisoformat clk complaint in
  let* score := subscript scored_complaint "priority_score" in
  let* priority_category := category_of score in
  let complaint_text := dict_get complaint "complaint_text" (VStr "") in
  let* ai_analysis := self_analyze_complaint complaint_text in
  let* priority_score := subscript scored_complaint "priority_score" in
  let* priority_breakdown := subscript scored_complaint "priority_breakdown" in
  Ok (<["complaint_id" := dict_get complaint "id" VNone]>
     (<["priority_score" := priority_score]>
     (<["priority_category" := VStr priority_category]>
     (<["priority_breakdown" := priority_breakdown]>
     (<["ai_analysis" := ai_analysis]>
     (<["metadata" :=
          VDict (<["created_at" := dict_get complaint "created_at" VNone]>
                (<["status" := dict_get complaint "status" VNone]>
                (<["affected_people" := dict_get complaint "affected_people" VNone]>
                (<["location" := dict_get complaint "location" VNone]> ∅))))]> ∅)))))).

(** [analyze_multiple_complaints]: the twenty first of the sorted list,
    each analysed in turn; the first exception escapes. *)
Definition analyze_multiple_complaints (complaints : list (gmap string pyval))
  : result (list (gmap string pyval)) :=
  let* sorted_complaints := score_and_sort_complaints fromisoformat clk complaints in
  list_comprehension analyze_complaint_with_priority (take 20 sorted_complaints).

End Analysis.

End GeminiConfig.

(* ===================================================================== *)
(** * Further vocabulary *)
(* ===================================================================== *)

Module LimiterSpec.
Import RateLimiter.

(** Oldest first. *)
Definition chronological (l : list Q) : Prop := StronglySorted Qle l.

(** The entries of [l] that are not older than [bound]. *)
Definition not_older (bound : Q) (l : list Q) : list Q :=
  filter (fun t => Qle_bool bound t = true) l.

(** The minute window is the tail end of the hour window. *)
Definition nested (l : limiter) : Prop :=
  exists older, hour_requests l = older ++ minute_requests l.

(** Any two instants of [l] that are [n] places apart are more than
    [span] seconds apart. *)
Definition spaced (n : nat) (span : Q) (l : list Q) : Prop :=
  forall (i : nat) (a b : Q),
    l !! i = Some a -> l !! (i + n)%nat = Some b -> (a + span < b)%Q.

(** The sum of the sleep lengths of a list. *)
Definition total (ds : list Q) : Q := foldr Qplus 0%Q ds.

End LimiterSpec.

(* ===================================================================== *)
(** * Properties of the scorer *)
(* ===================================================================== *)

Module ScorerFacts.
Import PyStr PriorityScorer.

(** ** Sub-score ranges *)

Lemma priority_weight_range (k : string) :
  0 <= dict_get PRIORITY_WEIGHTS k 0 <= 100.
Proof.
  unfold dict_get, PRIORITY_WEIGHTS.
  repeat (rewrite lookup_insert; case_decide; [simpl; lia|]).
  rewrite lookup_empty. lia.
Qed.

Lemma status_weight_range (k : string) :
  0 <= dict_get STATUS_WEIGHTS k 0 <= 50.
Proof.
  unfold dict_get, STATUS_WEIGHTS.
  repeat (rewrite lookup_insert; case_decide; [simpl; lia|]).
  rewrite lookup_empty. lia.
Qed.

Lemma population_score_range (v : pyval) (n : Z) :
  calculate_population_score v = Ok n -> 0 <= n <= 40.
Proof.
  unfold calculate_population_score, POPULATION_MULTIPLIER, POPULATION_MAX.
  destruct v as [|b|m|s|d]; simpl.
  - intros [= <-]. lia.
  - destruct b; simpl; intros [= <-]; lia.
  - destruct (m =? 0) eqn:E0; simpl.
    + intros [= <-]. lia.
    + destruct (0 <? m) eqn:Epos; simpl; intros [= <-]; lia.
  - destruct (String.eqb s ""); simpl; [intros [= <-]; lia | discriminate].
  - destruct (bool_decide (d = ∅)); simpl; [intros [= <-]; lia | discriminate].
Qed.

Lemma population_score_count_like (v : pyval) :
  is_Ok (calculate_population_score v) <-> count_like v.
Proof.
  unfold calculate_population_score, count_like.
  destruct v as [|b|m|s|d]; simpl.
  - tauto.
  - destruct b; simpl; tauto.
  - destruct (m =? 0); simpl; [tauto|]. destruct (0 <? m); simpl; tauto.
  - destruct (String.eqb s ""); simpl; [tauto|]. split; [tauto | discriminate].
  - destruct (bool_decide (d = ∅)); simpl; [tauto|]. split; [tauto | discriminate].
Qed.

Lemma age_score_upper (fromiso : string -> option datetime) (clk : clock) (v : pyval) :
  calculate_age_score fromiso clk v <= 50.
Proof.
  unfold calculate_age_score, age_score_try, AGE_MAX.
  destruct (as_str "replace" v) as [s|]; simpl; [|lia].
  destruct (fromiso _) as [d|]; simpl; [|lia].
  destruct (datetime_sub _ d); simpl; lia.
Qed.

(** The subtraction in [calculate_age_score] never mixes a naive and an
    aware datetime: "now" is taken in the zone of the parsed instant. *)
Lemma datetime_sub_now (clk : clock) (d : datetime) :
  datetime_sub (datetime_now clk (tzinfo d)) d = Ok (seconds_since clk d).
Proof.
  unfold seconds_since, datetime_sub, datetime_now.
  destruct (tzinfo d); reflexivity.
Qed.

Lemma age_score_parsed (fromiso : string -> option datetime) (clk : clock)
  (s : string) (d : datetime) :
  fromiso (replace_char "Z" "+00:00" s) = Some d ->
  calculate_age_score fromiso clk (VStr s)
  = Z.min (days (seconds_since clk d) * 5) 50.
Proof.
  intros Hd. unfold calculate_age_score, age_score_try. simpl.
  rewrite Hd. simpl. rewrite datetime_sub_now. reflexivity.
Qed.

Lemma days_of_whole (n : Z) (td : Q) :
  (td == inject_Z n * one_day)%Q -> days td = n.
Proof.
  intros H. unfold days.
  assert (E : (td / one_day == inject_Z n)%Q).
  { rewrite H. unfold one_day. field. }
  rewrite E. apply Qfloor_Z.
Qed.

Lemma days_nonneg (td : Q) : (0 <= td)%Q -> 0 <= days td.
Proof.
  intros H. unfold days.
  change 0 with (Qfloor 0). apply Qfloor_resp_le.
  unfold one_day. apply Qle_shift_div_l; [reflexivity | lra].
Qed.

Lemma days_negative (td : Q) : (td < 0)%Q -> days td < 0.
Proof.
  intros H. unfold days.
  assert (Hq : (td / one_day < 0)%Q).
  { unfold one_day. apply Qlt_shift_div_r; [reflexivity | lra]. }
  pose proof (Qfloor_le (td / one_day)) as Hf.
  assert (Hlt : (inject_Z (Qfloor (td / one_day)) < inject_Z 0)%Q).
  { eapply Qle_lt_trans; [exact Hf | exact Hq]. }
  rewrite <- Zlt_Qlt in Hlt. exact Hlt.
Qed.

(** ** The shape of a scored complaint *)

Section Scoring.
Variable fromiso : string -> option datetime.
Variable clk : clock.

Lemma score_complaint_inv (c s : gmap string pyval) :
  score_complaint fromiso clk c = Ok s ->
  exists (priority status : string) (po : Z),
    dict_get c "priority" (VStr "low") = VStr priority /\
    dict_get c "status" (VStr "pending") = VStr status /\
    calculate_population_score (dict_get c "affected_people" (VInt 0)) = Ok po /\
    s = scored_as c (dict_get PRIORITY_WEIGHTS (lower priority) 0)
                    (dict_get STATUS_WEIGHTS (lower status) 0)
                    (calculate_age_score fromiso clk (dict_get c "created_at" (VStr "")))
                    po.
Proof.
  unfold score_complaint. intros H.
  destruct (dict_get c "priority" (VStr "low")) as [| | |priority|]; try discriminate.
  destruct (dict_get c "status" (VStr "pending")) as [| | |status|]; try discriminate.
  simpl in H.
  destruct (calculate_population_score _) as [po|] eqn:Epo; try discriminate.
  simpl in H. injection H as <-.
  exists priority, status, po. repeat split; reflexivity.
Qed.

Lemma score_complaint_ok (c : gmap string pyval) (priority status : string) (po : Z) :
  dict_get c "priority" (VStr "low") = VStr priority ->
  dict_get c "status" (VStr "pending") = VStr status ->
  calculate_population_score (dict_get c "affected_people" (VInt 0)) = Ok po ->
  score_complaint fromiso clk c
  = Ok (scored_as c (dict_get PRIORITY_WEIGHTS (lower priority) 0)
                    (dict_get STATUS_WEIGHTS (lower status) 0)
                    (calculate_age_score fromiso clk (dict_get c "created_at" (VStr "")))
                    po).
Proof.
  intros Hp Hs Hpo. unfold score_complaint.
  rewrite Hp, Hs. simpl. rewrite Hpo. reflexivity.
Qed.

Lemma scored_as_total (c : gmap string pyval) (p st a po : Z) :
  priority_score (scored_as c p st a po) = Some (VInt (p + st + a + po)).
Proof.
  unfold priority_score, scored_as.
  rewrite lookup_insert_ne by discriminate. apply lookup_insert_eq.
Qed.

Lemma scored_as_sort_key (c : gmap string pyval) (p st a po : Z) :
  sort_key (scored_as c p st a po) = p + st + a + po.
Proof.
  unfold sort_key, dict_get.
  pose proof (scored_as_total c p st a po) as H. unfold priority_score in H.
  rewrite H. reflexivity.
Qed.

Lemma scored_as_breakdown (c : gmap string pyval) (p st a po : Z) :
  breakdown (scored_as c p st a po) "priority_level" = Some (VInt p) /\
  breakdown (scored_as c p st a po) "status" = Some (VInt st) /\
  breakdown (scored_as c p st a po) "age" = Some (VInt a) /\
  breakdown (scored_as c p st a po) "population_impact" = Some (VInt po) /\
  breakdown (scored_as c p st a po) "total" = Some (VInt (p + st + a + po)).
Proof.
  unfold breakdown, scored_as. rewrite lookup_insert_eq.
  repeat split; reflexivity.
Qed.

(** The original fields are carried over unchanged. *)
Lemma scored_as_keeps_fields (c : gmap string pyval) (p st a po : Z) (key : string) :
  key <> "priority_score" -> key <> "priority_breakdown" ->
  scored_as c p st a po !! key = c !! key.
Proof.
  intros H1 H2. unfold scored_as.
  rewrite !lookup_insert_ne by congruence. reflexivity.
Qed.

(** The total is the sum of the four parts and never exceeds 240; it is
    non-negative as soon as the age part is. *)
Lemma score_complaint_sum (c s : gmap string pyval) :
  score_complaint fromiso clk c = Ok s ->
  exists p st a po : Z,
    s = scored_as c p st a po /\
    a = calculate_age_score fromiso clk (dict_get c "created_at" (VStr "")) /\
    priority_score s = Some (VInt (p + st + a + po)) /\
    0 <= p <= 100 /\ 0 <= st <= 50 /\ a <= 50 /\ 0 <= po <= 40 /\
    p + st + a + po <= 240.
Proof.
  intros H. destruct (score_complaint_inv c s H) as (pr & stt & po & Hp & Hs & Hpo & ->).
  pose proof (priority_weight_range (lower pr)).
  pose proof (status_weight_range (lower stt)).
  pose proof (population_score_range _ _ Hpo).
  pose proof (age_score_upper fromiso clk (dict_get c "created_at" (VStr ""))).
  do 4 eexists. split; [reflexivity|]. split; [reflexivity|].
  split; [apply scored_as_total|]. lia.
Qed.

(** When the parsed creation instant is not after "now", the age part is
    between 0 and 50. *)
Lemma age_score_past (s : string) (d : datetime) :
  fromiso (replace_char "Z" "+00:00" s) = Some d ->
  (0 <= seconds_since clk d)%Q ->
  0 <= calculate_age_score fromiso clk (VStr s) <= 50.
Proof.
  intros Hd Hpast. rewrite (age_score_parsed _ _ _ _ Hd).
  pose proof (days_nonneg _ Hpast). lia.
Qed.

(** When it is after "now", the age part is negative. *)
Lemma age_score_future (s : string) (d : datetime) :
  fromiso (replace_char "Z" "+00:00" s) = Some d ->
  (seconds_since clk d < 0)%Q ->
  calculate_age_score fromiso clk (VStr s) < 0.
Proof.
  intros Hd Hfut. rewrite (age_score_parsed _ _ _ _ Hd).
  pose proof (days_negative _ Hfut). lia.
Qed.

(** A creation field that is not a string, or that the parser rejects,
    gives age 0. *)
Lemma age_score_malformed (v : pyval) :
  match v with
  | VStr s => fromiso (replace_char "Z" "+00:00" s) = None
  | _ => True
  end ->
  calculate_age_score fromiso clk v = 0.
Proof.
  unfold calculate_age_score, age_score_try.
  destruct v; simpl; try reflexivity.
  intros ->. reflexivity.
Qed.

End Scoring.

(** ** Sorting *)

Section Sorting.
Context {A : Type}.
Variable key : A -> Z.

Lemma insert_desc_perm (x : A) (l : list A) : insert_desc key x l ≡ₚ x :: l.
Proof.
  induction l as [|y l IH]; simpl; [reflexivity|].
  destruct (key x <? key y); [|reflexivity].
  rewrite IH. apply Permutation_swap.
Qed.

Lemma sorted_reverse_perm (l : list A) : sorted_reverse key l ≡ₚ l.
Proof.
  induction l as [|x l IH]; simpl; [reflexivity|].
  rewrite insert_desc_perm. by rewrite IH.
Qed.

Lemma insert_desc_sorted (x : A) (l : list A) :
  StronglySorted (descending key) l ->
  StronglySorted (descending key) (insert_desc key x l).
Proof.
  induction 1 as [|y l Hs IH Hy]; simpl.
  - repeat constructor.
  - destruct (key x <? key y) eqn:E.
    + apply Z.ltb_lt in E. constructor; [exact IH|].
      rewrite insert_desc_perm. constructor; [unfold descending; lia | exact Hy].
    + apply Z.ltb_ge in E. constructor; [by constructor|].
      constructor; [unfold descending; lia|].
      eapply Forall_impl; [exact Hy|]. unfold descending. intros z Hz. simpl in Hz. lia.
Qed.

Lemma sorted_reverse_sorted (l : list A) :
  StronglySorted (descending key) (sorted_reverse key l).
Proof.
  induction l as [|x l IH]; simpl; [constructor | by apply insert_desc_sorted].
Qed.

(** Inserting [x] moves it only past elements of a different key. *)
Lemma insert_desc_stable (k : Z) (x : A) (l : list A) :
  filter (fun y => key y = k) (insert_desc key x l)
  = filter (fun y => key y = k) (x :: l).
Proof.
  induction l as [|y l IH]; simpl; [reflexivity|].
  destruct (key x <? key y) eqn:E; [|reflexivity].
  apply Z.ltb_lt in E.
  rewrite filter_cons, IH, !filter_cons.
  repeat case_decide; try reflexivity; lia.
Qed.

Lemma sorted_reverse_stable (k : Z) (l : list A) :
  filter (fun y => key y = k) (sorted_reverse key l)
  = filter (fun y => key y = k) l.
Proof.
  induction l as [|x l IH]; simpl; [reflexivity|].
  rewrite insert_desc_stable, !filter_cons, IH. reflexivity.
Qed.

End Sorting.

Lemma list_comprehension_Forall2 {A B : Type} (f : A -> result B)
  (xs : list A) (ys : list B) :
  list_comprehension f xs = Ok ys <-> Forall2 (fun x y => f x = Ok y) xs ys.
Proof.
  revert ys. induction xs as [|x xs IH]; intros ys; simpl.
  - split; [intros [= <-]; constructor | by inversion 1].
  - split.
    + destruct (f x) as [y|] eqn:Ex; simpl; [|discriminate].
      destruct (list_comprehension f xs) as [ys'|] eqn:Exs; simpl; [|discriminate].
      intros [= <-]. constructor; [exact Ex | by apply IH].
    + inversion 1 as [|? y ? ys' Hx Hxs]; subst.
      rewrite Hx. simpl. apply IH in Hxs. rewrite Hxs. reflexivity.
Qed.

Lemma list_comprehension_raise {A B : Type} (f : A -> result B)
  (xs : list A) (e : exn) :
  list_comprehension f xs = Raise e -> exists x, x ∈ xs /\ f x = Raise e.
Proof.
  induction xs as [|x xs IH]; simpl; [discriminate|].
  destruct (f x) as [y|e'] eqn:Ex; simpl.
  - destruct (list_comprehension f xs) as [ys'|e'']; simpl; [discriminate|].
    intros [= <-]. destruct IH as (x' & Hin & Hx'); [reflexivity|].
    exists x'. split; [by right | exact Hx'].
  - intros [= <-]. exists x. split; [by left | exact Ex].
Qed.

(** The clock used in the worked examples below. *)
Example clock_of_examples :
  IsoFormat.clock_at "2026-01-02T08:00:00+00:00"
  = Some (mk_clock (inject_Z 1767340800) 0).
Proof. reflexivity. Qed.

Example get_priority_category_thresholds :
  map get_priority_category [240; 200; 199; 150; 149; 100; 99; 50; 49; 0; -25]
  = ["CRITICAL"; "CRITICAL"; "HIGH"; "HIGH"; "MEDIUM"; "MEDIUM"; "LOW"; "LOW";
     "MINIMAL"; "MINIMAL"; "MINIMAL"].
Proof. reflexivity. Qed.

(** ** The claims about the scorer *)

(** C1. The score is claimed to lie in 0..240 for every complaint, a
    creation instant in the future included.  Here the code is run on a
    complaint created ten days after "now": the age part is -50 and the
    total is 25 + 0 - 50 + 0 = -25, below the claimed range (the sum and
    the upper bound hold, see [score_complaint_sum]). *)
Theorem score_future_complaint_negative :
  let now := mk_clock (inject_Z 1767340800) 0 in  (* 2026-01-02T08:00:00Z *)
  let c := complaint_of "low" "resolved" 0 "2026-01-12T08:00:00Z" in
  exists s,
    score_complaint IsoFormat.fromisoformat now c = Ok s /\
    breakdown s "priority_level" = Some (VInt 25) /\
    breakdown s "status" = Some (VInt 0) /\
    breakdown s "age" = Some (VInt (-50)) /\
    breakdown s "population_impact" = Some (VInt 0) /\
    priority_score s = Some (VInt (-25)).
Proof.
  eexists. split; [reflexivity|]. repeat split; vm_compute; reflexivity.
Qed.

(** C2, as stated, fails: a priority or status that is present but not a
    string, or a non-empty count that is not a number, makes
    [score_complaint] raise. *)
Lemma score_complaint_raises_on_wrong_types :
  let now := mk_clock 0 0 in
  score_complaint IsoFormat.fromisoformat now (<["priority" := VNone]> ∅)
    = Raise (AttributeError "object has no attribute 'lower'") /\
  score_complaint IsoFormat.fromisoformat now (<["status" := VInt 3]> ∅)
    = Raise (AttributeError "object has no attribute 'lower'") /\
  score_complaint IsoFormat.fromisoformat now (<["affected_people" := VStr "many"]> ∅)
    = Raise (TypeError "'>' not supported between these instances and 'int'").
Proof. repeat split; reflexivity. Qed.

(** [score_complaint] returns exactly on the complaints whose priority and
    status, when present, are strings and whose count is a number or
    falsy. *)
Lemma score_complaint_ok_iff (fromiso : string -> option datetime) (clk : clock)
  (c : gmap string pyval) :
  is_Ok (score_complaint fromiso clk c) <->
  str_or_absent c "priority" /\ str_or_absent c "status" /\
  count_like (dict_get c "affected_people" (VInt 0)).
Proof.
  rewrite <- population_score_count_like.
  unfold score_complaint, str_or_absent, dict_get.
  destruct (c !! "priority") as [[| | |p|]|]; simpl; try tauto;
  destruct (c !! "status") as [[| | |st|]|]; simpl; try tauto;
  destruct (calculate_population_score _); simpl; tauto.
Qed.

(** C2, amended.  On a complaint whose priority and status, when present,
    are strings and whose count is a number or falsy, [score_complaint]
    returns, and each malformed or missing field degrades to its default:
    a missing priority scores as 'low' (25) and a missing status as
    'pending' (20), an unrecognized one scores 0, a creation field that is
    missing, not a string or rejected by the parser gives age 0, and a
    missing, [None] or non-positive count gives population 0. *)
Theorem score_complaint_degrades (fromiso : string -> option datetime) (clk : clock)
  (c : gmap string pyval) :
  str_or_absent c "priority" ->
  str_or_absent c "status" ->
  count_like (dict_get c "affected_people" (VInt 0)) ->
  exists p st a po : Z,
    score_complaint fromiso clk c = Ok (scored_as c p st a po) /\
    (c !! "priority" = None -> p = 25) /\
    (forall s, c !! "priority" = Some (VStr s) ->
               PRIORITY_WEIGHTS !! lower s = None -> p = 0) /\
    (c !! "status" = None -> st = 20) /\
    (forall s, c !! "status" = Some (VStr s) ->
               STATUS_WEIGHTS !! lower s = None -> st = 0) /\
    (match c !! "created_at" with
     | Some (VStr s) => fromiso (replace_char "Z" "+00:00" s) = None
     | Some _ => True
     | None => fromiso "" = None
     end -> a = 0) /\
    (match c !! "affected_people" with
     | None | Some VNone => True
     | Some (VInt n) => n <= 0
     | Some (VBool b) => b = false
     | Some v => truthy v = false
     end -> po = 0).
Proof.
  intros Hp Hs Hc.
  apply population_score_count_like in Hc.
  destruct (calculate_population_score _) as [po|] eqn:Epo; [|contradiction].
  unfold str_or_absent in Hp, Hs.
  assert (Hpr : exists pr, dict_get c "priority" (VStr "low") = VStr pr /\
            (c !! "priority" = None -> pr = "low") /\
            (forall s, c !! "priority" = Some (VStr s) -> pr = s)).
  { unfold dict_get. destruct (c !! "priority") as [[| | |pr|]|]; try contradiction.
    - exists pr. repeat split; [discriminate | by intros ? [= ->]].
    - exists "low". repeat split; discriminate. }
  assert (Hst : exists stt, dict_get c "status" (VStr "pending") = VStr stt /\
            (c !! "status" = None -> stt = "pending") /\
            (forall s, c !! "status" = Some (VStr s) -> stt = s)).
  { unfold dict_get. destruct (c !! "status") as [[| | |stt|]|]; try contradiction.
    - exists stt. repeat split; [discriminate | by intros ? [= ->]].
    - exists "pending". repeat split; discriminate. }
  destruct Hpr as (pr & Epr & Hpr0 & Hpr1), Hst as (stt & Est & Hst0 & Hst1).
  do 4 eexists. split; [exact (score_complaint_ok fromiso clk c pr stt po Epr Est Epo)|].
  repeat split.
  - intros H. rewrite (Hpr0 H). reflexivity.
  - intros s H Hnone. rewrite (Hpr1 s H). unfold dict_get. by rewrite Hnone.
  - intros H. rewrite (Hst0 H). reflexivity.
  - intros s H Hnone. rewrite (Hst1 s H). unfold dict_get. by rewrite Hnone.
  - intros H. apply age_score_malformed. unfold dict_get.
    destruct (c !! "created_at") as [[| | |s|]|]; simpl; trivial.
  - revert Epo. unfold dict_get.
    destruct (c !! "affected_people") as [[|b|n|s|d]|];
      unfold calculate_population_score; simpl.
    + by intros [= <-].
    + intros E ->. simpl in E. by injection E as <-.
    + intros E Hn. destruct (n =? 0); simpl in E; [by injection E as <-|].
      destruct (0 <? n) eqn:E0; [apply Z.ltb_lt in E0; lia|].
      simpl in E. by injection E as <-.
    + intros E Hf. rewrite Hf in E. simpl in E. by injection E as <-.
    + intros E Hf. rewrite Hf in E. simpl in E. by injection E as <-.
    + by intros [= <-].
Qed.

Lemma score_complaint_degrades_witness :
  let c : gmap string pyval :=
    <["status" := VStr "Archived"]>
    (<["created_at" := VStr "yesterday"]>
    (<["affected_people" := VInt (-4)]> ∅)) in
  exists p st a po : Z,
    score_complaint IsoFormat.fromisoformat (mk_clock 0 0) c = Ok (scored_as c p st a po) /\
    p = 25 /\ st = 0 /\ a = 0 /\ po = 0.
Proof.
  intros c.
  destruct (score_complaint_degrades IsoFormat.fromisoformat (mk_clock 0 0) c)
    as (p & st & a & po & Hs & Hp & _ & _ & Hst & Ha & Hpo).
  - exact I.
  - exact I.
  - exact I.
  - exists p, st, a, po. split; [exact Hs|].
    split; [apply Hp; reflexivity|].
    split; [apply (Hst "Archived"); reflexivity|].
    split; [apply Ha; reflexivity | apply Hpo; vm_compute; discriminate].
Defined.

(** C8. [score_and_sort_complaints] scores every element on its own and
    returns the scored elements, highest total first: the output is a
    permutation of the individually scored inputs, sorted in descending
    order of ['priority_score'], and for every score the elements with
    that score appear in their input order (stability); it raises only
    when scoring one of the elements raises.  In particular two complaints
    with equal scores given as [A, B] come out as [A, B]. *)
Theorem score_and_sort_descending_stable (fromiso : string -> option datetime)
  (clk : clock) (complaints : list (gmap string pyval)) :
  match score_and_sort_complaints fromiso clk complaints with
  | Ok out =>
      exists scored,
        Forall2 (fun c s => score_complaint fromiso clk c = Ok s) complaints scored /\
        out ≡ₚ scored /\
        StronglySorted (descending sort_key) out /\
        (forall k, filter (fun x => sort_key x = k) out
                   = filter (fun x => sort_key x = k) scored) /\
        Forall (fun x => priority_score x = Some (VInt (sort_key x))) out
  | Raise e =>
      exists c, c ∈ complaints /\ score_complaint fromiso clk c = Raise e
  end /\
  (forall A B sA sB : gmap string pyval,
     complaints = [A; B] ->
     score_complaint fromiso clk A = Ok sA ->
     score_complaint fromiso clk B = Ok sB ->
     sort_key sA = sort_key sB ->
     score_and_sort_complaints fromiso clk complaints = Ok [sA; sB]).
Proof.
  split.
  - unfold score_and_sort_complaints.
    destruct (list_comprehension _ complaints) as [scored|e] eqn:E; simpl.
    + exists scored. apply list_comprehension_Forall2 in E.
      split; [exact E|]. split; [apply sorted_reverse_perm|].
      split; [apply sorted_reverse_sorted|]. split; [intros k; apply sorted_reverse_stable|].
      rewrite sorted_reverse_perm.
      induction E as [|c s cs ss Hc _ IH]; constructor; [|exact IH].
      destruct (score_complaint_sum _ _ _ _ Hc) as (p & st & a & po & -> & _ & Ht & _).
      rewrite scored_as_sort_key. exact Ht.
    + by apply list_comprehension_raise.
  - intros A B sA sB -> HA HB Hkey.
    unfold score_and_sort_complaints. simpl. rewrite HA, HB. simpl.
    rewrite Hkey, Z.ltb_irrefl. reflexivity.
Qed.

(** C10. The worked scenario: urgent, escalated, 500 people, created
    exactly one day before "now" scores 100 + 50 + 5 + 40 = 195, category
    HIGH; low, pending, 10 people, created "now" scores 25 + 20 + 0 + 20 =
    65, category LOW; sorting the pair (in either input order) puts the
    first before the second; and a complaint created 30 days ago has age
    score exactly 50. *)
Theorem concrete_scenario (fromiso : string -> option datetime) (clk : clock)
  (t1 t2 t3 : string) (d1 d2 d3 : datetime) :
  fromiso (replace_char "Z" "+00:00" t1) = Some d1 ->
  (seconds_since clk d1 == one_day)%Q ->
  fromiso (replace_char "Z" "+00:00" t2) = Some d2 ->
  (seconds_since clk d2 == 0)%Q ->
  fromiso (replace_char "Z" "+00:00" t3) = Some d3 ->
  (seconds_since clk d3 == 30 * one_day)%Q ->
  let c1 := complaint_of "urgent" "escalated" 500 t1 in
  let c2 := complaint_of "low" "pending" 10 t2 in
  let s1 := scored_as c1 100 50 5 40 in
  let s2 := scored_as c2 25 20 0 20 in
  score_complaint fromiso clk c1 = Ok s1 /\
  priority_score s1 = Some (VInt 195) /\
  get_priority_category 195 = "HIGH" /\
  score_complaint fromiso clk c2 = Ok s2 /\
  priority_score s2 = Some (VInt 65) /\
  get_priority_category 65 = "LOW" /\
  score_and_sort_complaints fromiso clk [c1; c2] = Ok [s1; s2] /\
  score_and_sort_complaints fromiso clk [c2; c1] = Ok [s1; s2] /\
  calculate_age_score fromiso clk (VStr t3) = 50.
Proof.
  intros H1 E1 H2 E2 H3 E3 c1 c2 s1 s2.
  assert (A1 : calculate_age_score fromiso clk (VStr t1) = 5).
  { rewrite (age_score_parsed _ _ _ _ H1), (days_of_whole 1); [reflexivity|].
    rewrite E1. reflexivity. }
  assert (A2 : calculate_age_score fromiso clk (VStr t2) = 0).
  { rewrite (age_score_parsed _ _ _ _ H2), (days_of_whole 0); [reflexivity|].
    rewrite E2. reflexivity. }
  assert (A3 : calculate_age_score fromiso clk (VStr t3) = 50).
  { rewrite (age_score_parsed _ _ _ _ H3), (days_of_whole 30); [reflexivity|].
    rewrite E3. reflexivity. }
  assert (S1 : score_complaint fromiso clk c1 = Ok s1).
  { rewrite (score_complaint_ok fromiso clk c1 "urgent" "escalated" 40);
      [|reflexivity..].
    change (dict_get c1 "created_at" (VStr "")) with (VStr t1). rewrite A1.
    reflexivity. }
  assert (S2 : score_complaint fromiso clk c2 = Ok s2).
  { rewrite (score_complaint_ok fromiso clk c2 "low" "pending" 20);
      [|reflexivity..].
    change (dict_get c2 "created_at" (VStr "")) with (VStr t2). rewrite A2.
    reflexivity. }
  repeat split; try assumption; try apply scored_as_total.
  - unfold score_and_sort_complaints. simpl. rewrite S1, S2. simpl.
    unfold s1, s2. rewrite !scored_as_sort_key. reflexivity.
  - unfold score_and_sort_complaints. simpl. rewrite S1, S2. simpl.
    unfold s1, s2. rewrite !scored_as_sort_key. reflexivity.
Qed.

Lemma concrete_scenario_witness :
  let clk := mk_clock (inject_Z 1767340800) 0 in  (* 2026-01-02T08:00:00Z *)
  let c1 := complaint_of "urgent" "escalated" 500 "2026-01-01T08:00:00Z" in
  let c2 := complaint_of "low" "pending" 10 "2026-01-02T08:00:00Z" in
  score_complaint IsoFormat.fromisoformat clk c1 = Ok (scored_as c1 100 50 5 40) /\
  score_complaint IsoFormat.fromisoformat clk c2 = Ok (scored_as c2 25 20 0 20) /\
  score_and_sort_complaints IsoFormat.fromisoformat clk [c2; c1]
    = Ok [scored_as c1 100 50 5 40; scored_as c2 25 20 0 20] /\
  calculate_age_score IsoFormat.fromisoformat clk (VStr "2025-12-03T08:00:00Z") = 50.
Proof.
  intros clk c1 c2.
  destruct (concrete_scenario IsoFormat.fromisoformat clk
              "2026-01-01T08:00:00Z" "2026-01-02T08:00:00Z" "2025-12-03T08:00:00Z"
              (mk_datetime (inject_Z 1767254400) (Some 0%Q))
              (mk_datetime (inject_Z 1767340800) (Some 0%Q))
              (mk_datetime (inject_Z 1764748800) (Some 0%Q)))
    as (S1 & _ & _ & S2 & _ & _ & _ & S21 & A3);
    try reflexivity.
  repeat split; assumption.
Defined.

End ScorerFacts.

(* ===================================================================== *)
(** * Properties of the rate limiter *)
(* ===================================================================== *)

Module LimiterFacts.
Import PyStr RateLimiter.

(** ** Comparisons *)

Lemma Qltb_true (a b : Q) : Qltb a b = true <-> (a < b)%Q.
Proof.
  unfold Qltb. rewrite Qlt_alt.
  destruct (a ?= b)%Q; split; congruence.
Qed.

Lemma Qltb_false (a b : Q) : Qltb a b = false <-> (b <= a)%Q.
Proof.
  destruct (Qlt_le_dec a b) as [Hlt|Hle].
  - pose proof (proj2 (Qltb_true a b) Hlt) as E. rewrite E.
    split; [discriminate | intros; lra].
  - split; [intros _; exact Hle|]. intros _.
    destruct (Qltb a b) eqn:E; [|reflexivity].
    apply Qltb_true in E. lra.
Qed.

(** ** The purge *)

Lemma popleft_while_older_split (bound : Q) (q : list Q) :
  exists dropped,
    q = dropped ++ popleft_while_older bound q /\
    Forall (fun t => (t < bound)%Q) dropped.
Proof.
  induction q as [|t q (dropped & Hq & Hd)]; simpl.
  - exists []. split; [reflexivity | constructor].
  - destruct (Qltb t bound) eqn:E.
    + exists (t :: dropped). split; [simpl; congruence|].
      constructor; [by apply Qltb_true | exact Hd].
    + exists []. split; [reflexivity | constructor].
Qed.

Lemma popleft_while_older_all (bound : Q) (q : list Q) :
  Forall (fun t => (t < bound)%Q) q -> popleft_while_older bound q = [].
Proof.
  induction 1 as [|t q Ht _ IH]; simpl; [reflexivity|].
  apply Qltb_true in Ht. rewrite Ht. exact IH.
Qed.

Lemma popleft_while_older_head (bound t : Q) (q rest : list Q) :
  popleft_while_older bound q = t :: rest -> (bound <= t)%Q.
Proof.
  induction q as [|t' q IH]; simpl; [discriminate|].
  destruct (Qltb t' bound) eqn:E; [exact IH|].
  intros [= -> _]. by apply Qltb_false.
Qed.

(** ** One wait *)

Lemma evolves_refl (w : world) : evolves w w.
Proof.
  constructor.
  - repeat split; reflexivity.
  - reflexivity.
  - apply Qle_refl.
  - exists []. split; [reflexivity | constructor].
  - exists []. split; [reflexivity | constructor].
  - exists []. simpl. by rewrite app_nil_r.
Qed.

Lemma Forall_older_later (span t t' : Q) (l : list Q) :
  (t <= t')%Q ->
  Forall (fun x => (x < t - span)%Q) l -> Forall (fun x => (x < t' - span)%Q) l.
Proof.
  intros Ht H. eapply Forall_impl; [exact H|].
  intros x Hx. simpl in Hx. lra.
Qed.

Lemma evolves_trans (w1 w2 w3 : world) :
  evolves w1 w2 -> evolves w2 w3 -> evolves w1 w3.
Proof.
  intros [(c1 & c2 & c3 & c4) L12 T12 (dm & Em & Fm) (dh & Eh & Fh) (ds & Es)]
         [(c1' & c2' & c3' & c4') L23 T23 (dm' & Em' & Fm') (dh' & Eh' & Fh') (ds' & Es')].
  constructor.
  - repeat split; congruence.
  - congruence.
  - lra.
  - exists (dm ++ dm'). split; [rewrite Em, Em'; by rewrite app_assoc|].
    apply Forall_app. split; [by apply (Forall_older_later _ (clock w2)) | exact Fm'].
  - exists (dh ++ dh'). split; [rewrite Eh, Eh'; by rewrite app_assoc|].
    apply Forall_app. split; [by apply (Forall_older_later _ (clock w2)) | exact Fh'].
  - exists (ds ++ ds'). rewrite Es', Es, map_app. by rewrite app_assoc.
Qed.

Lemma clean_evolves (w : world) :
  evolves w (set_self w (_clean_old_requests (clock w) (self w))).
Proof.
  constructor; simpl.
  - repeat split; reflexivity.
  - reflexivity.
  - apply Qle_refl.
  - apply popleft_while_older_split.
  - apply popleft_while_older_split.
  - exists []. simpl. by rewrite app_nil_r.
Qed.

Lemma can_make_request_evolves (w : world) : evolves w (snd (_can_make_request w)).
Proof. apply clean_evolves. Qed.

Lemma get_wait_time_evolves (w : world) : evolves w (snd (_get_wait_time w)).
Proof.
  unfold _get_wait_time.
  destruct (minute_requests _); apply clean_evolves.
Qed.

Lemma get_wait_time_nonneg (w : world) : (0 <= fst (_get_wait_time w))%Q.
Proof.
  unfold _get_wait_time.
  destruct (minute_requests _); simpl; [lra | apply Q.le_max_l].
Qed.

Lemma time_sleep_ok (site : sleeper) (d : Q) (w : world) :
  (0 <= d)%Q ->
  time_sleep site d w
  = Ok (mk_world (self w) (clock w + d)%Q (trace w ++ [ESleep site d])).
Proof.
  intros Hd. unfold time_sleep.
  apply Qltb_false in Hd. by rewrite Hd.
Qed.

Lemma sleep_evolves (d : Q) (w : world) :
  (0 <= d)%Q ->
  evolves w (mk_world (self w) (clock w + d)%Q (trace w ++ [ESleep Admission d])).
Proof.
  intros Hd. constructor; simpl.
  - repeat split; reflexivity.
  - reflexivity.
  - lra.
  - exists []. split; [reflexivity | constructor].
  - exists []. split; [reflexivity | constructor].
  - exists [d]. reflexivity.
Qed.

(** Whatever the bound, the loop only cleans and sleeps, never raises,
    and leaves through its test: with room in both windows. *)
Lemma wait_loop_evolves (fuel : nat) (w : world) :
  evolves w (final (wait_loop fuel w)) /\
  match wait_loop fuel w with
  | Done (Ok _) w' =>
      Z.of_nat (length (minute_requests (self w'))) < requests_per_minute (self w') /\
      Z.of_nat (length (hour_requests (self w'))) < requests_per_hour (self w')
  | Done (Raise _) _ => False
  | Diverge _ => True
  end.
Proof.
  revert w. induction fuel as [|fuel IH]; intros w; cbn [wait_loop].
  - split; [apply evolves_refl | exact I].
  - pose proof (can_make_request_evolves w) as Hcan.
    destruct (_can_make_request w) as [can w1] eqn:Ecan. simpl in Hcan.
    destruct can.
    + simpl. split; [exact Hcan|].
      unfold _can_make_request in Ecan. injection Ecan as Ec <-.
      apply andb_true_iff in Ec. destruct Ec as [E1 E2].
      apply Z.ltb_lt in E1, E2. simpl. split; assumption.
    + pose proof (get_wait_time_evolves w1) as Hget.
      pose proof (get_wait_time_nonneg w1) as Hnn.
      destruct (_get_wait_time w1) as [wait_time w2] eqn:Eget. simpl in Hget, Hnn.
      destruct (Qltb 0 wait_time) eqn:Epos.
      * rewrite time_sleep_ok by lra.
        match goal with |- context [wait_loop fuel ?w3] => destruct (IH w3) as [Hev Hres];
          split; [|exact Hres]; refine (evolves_trans _ _ _ _ Hev) end.
        refine (evolves_trans _ _ _ Hcan (evolves_trans _ _ _ Hget _)).
        refine (evolves_trans _ _ _ (sleep_evolves (wait_time + (1 # 10)) w2 _) _); [lra|].
        apply (clean_evolves (mk_world _ _ _)).
      * rewrite time_sleep_ok by lra.
        match goal with |- context [wait_loop fuel ?w3] => destruct (IH w3) as [Hev Hres];
          split; [|exact Hres]; refine (evolves_trans _ _ _ _ Hev) end.
        refine (evolves_trans _ _ _ Hcan (evolves_trans _ _ _ Hget _)).
        apply sleep_evolves. lra.
Qed.

Lemma wait_if_needed_done (fuel : nat) (w w' : world) (res : result unit) :
  wait_if_needed fuel w = Done res w' ->
  res = Ok tt /\ lock_held (self w) = false /\ admission w w'.
Proof.
  unfold wait_if_needed. destruct (lock_held (self w)) eqn:Elock; [discriminate|].
  destruct (wait_loop_evolves fuel (acquire w)) as [Hev Hres].
  destruct (wait_loop fuel (acquire w)) as [[[]|e] w1|w1]; try discriminate; [|contradiction].
  intros [= <- <-]. split; [reflexivity|]. split; [reflexivity|].
  simpl in Hev.
  destruct Hev as [(c1 & c2 & c3 & c4) L T (dm & Em & Fm) (dh & Eh & Fh) (ds & Es)].
  simpl in *. destruct Hres as [Hm Hh].
  constructor; simpl.
  - repeat split; assumption.
  - reflexivity.
  - exact T.
  - exists dm, (minute_requests (self w1)). repeat split; assumption.
  - exists dh, (hour_requests (self w1)). repeat split; assumption.
  - exists ds. rewrite Es. rewrite <- !app_assoc. reflexivity.
  - rewrite length_app. simpl. lia.
  - rewrite length_app. simpl. lia.
Qed.

(** A wait that does not return has taken the lock and slept, nothing
    else (or found the lock held and done nothing). *)
Lemma wait_if_needed_diverge (fuel : nat) (w w' : world) :
  wait_if_needed fuel w = Diverge w' ->
  (lock_held (self w) = true /\ w' = w) \/
  (lock_held (self w) = false /\ lock_held (self w') = true /\
   exists ds, trace w' = trace w ++ EAcquire :: map (ESleep Admission) ds).
Proof.
  unfold wait_if_needed. destruct (lock_held (self w)) eqn:Elock.
  - intros [= <-]. by left.
  - destruct (wait_loop_evolves fuel (acquire w)) as [Hev _].
    destruct (wait_loop fuel (acquire w)) as [[[]|e] w1|w1]; try discriminate.
    intros [= <-]. right. split; [reflexivity|].
    simpl in Hev. destruct Hev as [_ L _ _ _ (ds & Es)]. simpl in *.
    split; [exact L|]. exists ds. rewrite Es, <- app_assoc. reflexivity.
Qed.

(** ** Reading traces *)

Lemma calls_app (t1 t2 : list event) : calls (t1 ++ t2) = calls t1 ++ calls t2.
Proof.
  induction t1 as [|[] t1 IH]; simpl; congruence.
Qed.

Lemma admitted_app (t1 t2 : list event) :
  admitted (t1 ++ t2) = admitted t1 ++ admitted t2.
Proof.
  induction t1 as [|[] t1 IH]; simpl; congruence.
Qed.

Lemma sleeps_app (site : sleeper) (t1 t2 : list event) :
  sleeps site (t1 ++ t2) = sleeps site t1 ++ sleeps site t2.
Proof.
  induction t1 as [|[| |[] d| |] t1 IH]; destruct site; simpl; congruence.
Qed.

Lemma calls_admission_sleeps (ds : list Q) : calls (map (ESleep Admission) ds) = [].
Proof. induction ds; simpl; congruence. Qed.

Lemma admitted_admission_sleeps (ds : list Q) :
  admitted (map (ESleep Admission) ds) = [].
Proof. induction ds; simpl; congruence. Qed.

Lemma backoff_admission_sleeps (ds : list Q) :
  sleeps Backoff (map (ESleep Admission) ds) = [].
Proof. induction ds; simpl; congruence. Qed.

Lemma lock_at_admission_sleeps (held : bool) (ds : list Q) (rest : list event) :
  lock_at_sleeps held (map (ESleep Admission) ds ++ rest)
  = replicate (length ds) held ++ lock_at_sleeps held rest.
Proof. induction ds; simpl; congruence. Qed.

(** ** The wait returns *)

(** Every turn of the loop that does not leave it sleeps for at least a
    tenth of a second; once the clock is an hour past every recorded
    instant both windows are purged empty and the test succeeds. *)
Lemma wait_loop_returns (n : nat) (w : world) (latest : Q) :
  1 <= requests_per_minute (self w) ->
  1 <= requests_per_hour (self w) ->
  Forall (fun t => (t <= latest)%Q) (minute_requests (self w)) ->
  Forall (fun t => (t <= latest)%Q) (hour_requests (self w)) ->
  (latest + one_hour < clock w + inject_Z (Z.of_nat n) * (1 # 10))%Q ->
  exists w', wait_loop (S n) w = Done (Ok tt) w'.
Proof.
  revert w. induction n as [|n IH]; intros w Hrpm Hrph Hm Hh Hclock;
    cbn [wait_loop].
  - (* the clock is already an hour past every entry *)
    unfold one_hour in Hclock. change (inject_Z (Z.of_nat 0)) with 0%Q in Hclock.
    unfold _can_make_request, _clean_old_requests. simpl.
    rewrite !popleft_while_older_all.
    + assert (E1 : (0 <? requests_per_minute (self w)) = true) by (apply Z.ltb_lt; lia).
      assert (E2 : (0 <? requests_per_hour (self w)) = true) by (apply Z.ltb_lt; lia).
      simpl. change (Z.of_nat 0) with 0. rewrite E1, E2. simpl. eauto.
    + eapply Forall_impl; [exact Hh|]. unfold one_hour. intros t Ht. simpl in Ht. lra.
    + eapply Forall_impl; [exact Hm|]. unfold one_minute. intros t Ht. simpl in Ht. lra.
  - pose proof (can_make_request_evolves w) as Hcan.
    destruct (_can_make_request w) as [can w1]. simpl in Hcan.
    destruct can; [eauto|].
    pose proof (get_wait_time_evolves w1) as Hget.
    pose proof (get_wait_time_nonneg w1) as Hnn.
    destruct (_get_wait_time w1) as [wait_time w2]. simpl in Hget, Hnn.
    pose proof (evolves_trans _ _ _ Hcan Hget) as Hev.
    assert (Hinj : (inject_Z (Z.of_nat (S n)) == inject_Z (Z.of_nat n) + 1)%Q).
    { rewrite Nat2Z.inj_succ. unfold Z.succ. rewrite inject_Z_plus. reflexivity. }
    rewrite Hinj in Hclock.
    destruct (Qltb 0 wait_time) eqn:Epos.
    + apply Qltb_true in Epos. rewrite time_sleep_ok by lra.
      set (w3 := mk_world (self w2) (clock w2 + (wait_time + (1 # 10)))%Q _).
      pose proof (clean_evolves w3) as Hclean.
      assert (Hev3 : evolves w (set_self w3 (_clean_old_requests (clock w3) (self w3)))).
      { refine (evolves_trans _ _ _ Hev (evolves_trans _ _ _ _ Hclean)).
        apply sleep_evolves. lra. }
      destruct Hev3 as [(c1 & c2 & _) _ _ (dm & Em & _) (dh & Eh & _) _].
      destruct Hev as [_ _ T _ _ _].
      apply IH.
      * rewrite c1. exact Hrpm.
      * rewrite c2. exact Hrph.
      * rewrite Em in Hm. by apply Forall_app in Hm as [_ Hm].
      * rewrite Eh in Hh. by apply Forall_app in Hh as [_ Hh].
      * simpl. lra.
    + rewrite time_sleep_ok by lra.
      destruct Hev as [(c1 & c2 & _) _ T (dm & Em & _) (dh & Eh & _) _].
      apply IH; simpl.
      * rewrite c1. exact Hrpm.
      * rewrite c2. exact Hrph.
      * rewrite Em in Hm. by apply Forall_app in Hm as [_ Hm].
      * rewrite Eh in Hh. by apply Forall_app in Hh as [_ Hh].
      * lra.
Qed.

Lemma admission_ready (w w' : world) : ready w -> admission w w' -> ready w'.
Proof.
  intros [R1 R2 _ Rm Rh]
    [(c1 & c2 & _) L T (dm & km & Em & Em' & _) (dh & kh & Eh & Eh' & _) _ _ _].
  constructor.
  - by rewrite c1.
  - by rewrite c2.
  - exact L.
  - rewrite Em'. rewrite Em in Rm. apply Forall_app in Rm as [_ Rm].
    apply Forall_app. split; [|repeat constructor; apply Qle_refl].
    eapply Forall_impl; [exact Rm|]. intros t Ht. simpl in Ht. lra.
  - rewrite Eh'. rewrite Eh in Rh. apply Forall_app in Rh as [_ Rh].
    apply Forall_app. split; [|repeat constructor; apply Qle_refl].
    eapply Forall_impl; [exact Rh|]. intros t Ht. simpl in Ht. lra.
Qed.

(** With limits of at least one and no instant of the future in the
    windows, [wait_if_needed] returns. *)
Lemma wait_if_needed_returns (w : world) :
  ready w ->
  exists w', wait_if_needed admission_fuel w = Done (Ok tt) w' /\
             admission w w' /\ ready w'.
Proof.
  intros Hr. pose proof Hr as [R1 R2 L Rm Rh].
  destruct (wait_loop_returns (Z.to_nat 36001) (acquire w) (clock w)) as [w1 Hw1];
    try assumption.
  { rewrite Z2Nat.id by lia. unfold one_hour. simpl. 
    change (inject_Z 36001) with (36001 # 1)%Q. lra. }
  destruct (wait_if_needed admission_fuel w) as [res w'|w'] eqn:E.
  - destruct (wait_if_needed_done _ _ _ _ E) as (-> & _ & Had).
    exists w'. split; [reflexivity|]. split; [exact Had|].
    by apply (admission_ready w).
  - exfalso. revert E. unfold wait_if_needed, admission_fuel.
    rewrite L, Hw1. discriminate.
Qed.

(** ** Construction *)

(** C3, as stated, fails: construction accepts a zero request limit, a
    negative hourly limit, a negative retry count and a negative initial
    delay. *)
Lemma init_accepts_invalid_parameters :
  __init__ 0 (-1500) (-1) (-1 # 2)
  = Ok (mk_limiter 0 (-1500) (-1) (-1 # 2) [] [] false).
Proof. reflexivity. Qed.

(** C3, amended.  Construction validates nothing: for every choice of the
    four parameters it succeeds, stores them as given, and starts with
    both windows empty and the lock free. *)
Theorem init_always_succeeds (rpm rph retries : Z) (delay : Q) :
  exists l,
    __init__ rpm rph retries delay = Ok l /\
    requests_per_minute l = rpm /\ requests_per_hour l = rph /\
    max_retries l = retries /\ initial_retry_delay l = delay /\
    minute_requests l = [] /\ hour_requests l = [] /\ lock_held l = false.
Proof. eexists. repeat split. Qed.

(** A non-positive limit is not rejected at first use either: the wait
    for capacity never returns. *)
Lemma wait_if_needed_never_returns (fuel : nat) (w w' : world) (res : result unit) :
  requests_per_minute (self w) <= 0 \/ requests_per_hour (self w) <= 0 ->
  wait_if_needed fuel w <> Done res w'.
Proof.
  intros Hbad E. apply wait_if_needed_done in E as (_ & _ & Had).
  destruct Had as [(c1 & c2 & _) _ _ (dm & km & _ & Em & _) (dh & kh & _ & Eh & _) _ Lm Lh].
  rewrite Em, length_app in Lm. rewrite Eh, length_app in Lh. simpl in Lm, Lh. lia.
Qed.

(** ** The lock and the sleeps *)

(** C4, as stated, fails.  A limiter built for one request per minute
    admits a request at time 0; a second caller at time 10 takes the
    lock, sleeps 50.1 s, records its request and only then releases the
    lock: the one sleep of the run began with the lock held. *)
Lemma wait_sleeps_holding_lock :
  exists l0 w1 w2,
    __init__ 1 1500 5 1 = Ok l0 /\
    wait_if_needed 1 (mk_world l0 0 []) = Done (Ok tt) w1 /\
    wait_if_needed 2 (elapse 10 w1) = Done (Ok tt) w2 /\
    trace w2 = trace w1 ++ [EAcquire; ESleep Admission (501 # 10);
                            EAdmitted (601 # 10); ERelease] /\
    lock_at_sleeps false (trace w2) = [true].
Proof.
  do 3 eexists. split; [reflexivity|].
  split; [vm_compute; reflexivity|].
  split; [vm_compute; reflexivity|].
  split; reflexivity.
Qed.

(** C4, amended.  In every execution of [wait_if_needed] the lock is held
    for the whole call: every sleep of the call begins with the lock
    held, and a call that returns has taken the lock first, then slept
    zero or more times, then recorded the request, then released the
    lock. *)
Theorem wait_if_needed_sleeps_under_lock (fuel : nat) (w : world) :
  exists events,
    trace (final (wait_if_needed fuel w)) = trace w ++ events /\
    Forall (fun held => held = true) (lock_at_sleeps (lock_held (self w)) events) /\
    match wait_if_needed fuel w with
    | Done _ w' =>
        exists ds, events = EAcquire :: map (ESleep Admission) ds
                            ++ [EAdmitted (clock w'); ERelease]
    | Diverge _ => True
    end.
Proof.
  destruct (wait_if_needed fuel w) as [res w'|w'] eqn:E.
  - apply wait_if_needed_done in E as (_ & L & Had).
    destruct Had as [_ _ _ _ _ (ds & Et) _ _].
    eexists. split; [exact Et|]. split; [|by exists ds].
    simpl. rewrite lock_at_admission_sleeps. simpl. rewrite app_nil_r.
    apply Forall_forall. by intros x ->%elem_of_replicate_inv.
  - apply wait_if_needed_diverge in E as [[L ->]|(L & _ & ds & Et)].
    + exists []. simpl. rewrite app_nil_r. repeat split. constructor.
    + eexists. split; [exact Et|]. split; [|exact I].
      simpl. rewrite <- (app_nil_r (map _ ds)), lock_at_admission_sleeps.
      simpl. rewrite app_nil_r.
      apply Forall_forall. by intros x ->%elem_of_replicate_inv.
Qed.

(** ** The windows *)

Lemma admission_admitted (w w' : world) :
  admission w w' -> admitted (trace w') = admitted (trace w) ++ [clock w'].
Proof.
  intros [_ _ _ _ _ (ds & Et) _ _]. rewrite Et.
  rewrite admitted_app. simpl. rewrite admitted_app, admitted_admission_sleeps.
  reflexivity.
Qed.

Lemma admission_history (w w' : world) :
  history_inv w -> admission w w' -> history_inv w'.
Proof.
  intros [(om & Hom & Fom) (oh & Hoh & Foh) Pm Ph] Had.
  pose proof (admission_admitted _ _ Had) as Hadm.
  destruct Had as [_ _ T (dm & km & Em & Em' & Fm) (dh & kh & Eh & Eh' & Fh) _ _ _].
  constructor.
  - exists (om ++ dm). split.
    + rewrite Hadm, Hom, Em, Em', <- !app_assoc. reflexivity.
    + apply Forall_app. split; [by apply (Forall_older_later _ (clock w)) | exact Fm].
  - exists (oh ++ dh). split.
    + rewrite Hadm, Hoh, Eh, Eh', <- !app_assoc. reflexivity.
    + apply Forall_app. split; [by apply (Forall_older_later _ (clock w)) | exact Fh].
  - rewrite Em'. rewrite Em in Pm. apply Forall_app in Pm as [_ Pm].
    apply Forall_app. split; [|repeat constructor; apply Qle_refl].
    eapply Forall_impl; [exact Pm|]. intros t Ht. simpl in Ht. lra.
  - rewrite Eh'. rewrite Eh in Ph. apply Forall_app in Ph as [_ Ph].
    apply Forall_app. split; [|repeat constructor; apply Qle_refl].
    eapply Forall_impl; [exact Ph|]. intros t Ht. simpl in Ht. lra.
Qed.

Lemma reachable_inv (l0 : limiter) (w : world) :
  reachable l0 w ->
  history_inv w /\ same_config l0 (self w) /\ lock_held (self w) = false.
Proof.
  induction 1 as [t0 Hm Hh Hl|w d _ (Hi & Hc & Hl) Hd|w w' fuel _ (Hi & Hc & Hl) Hw].
  - split; [|split; [repeat split | exact Hl]].
    constructor; simpl; rewrite ?Hm, ?Hh; try constructor.
    + exists []. split; [reflexivity | constructor].
    + exists []. split; [reflexivity | constructor].
  - split; [|split; assumption].
    destruct Hi as [(om & Hom & Fom) (oh & Hoh & Foh) Pm Ph].
    constructor; simpl.
    + exists om. split; [exact Hom|].
      apply (Forall_older_later _ (clock w)); [lra | exact Fom].
    + exists oh. split; [exact Hoh|].
      apply (Forall_older_later _ (clock w)); [lra | exact Foh].
    + eapply Forall_impl; [exact Pm|]. intros t Ht. simpl in Ht. lra.
    + eapply Forall_impl; [exact Ph|]. intros t Ht. simpl in Ht. lra.
  - apply wait_if_needed_done in Hw as (_ & _ & Had).
    split; [by apply (admission_history w)|].
    destruct Had as [(c1 & c2 & c3 & c4) L _ _ _ _ _ _].
    destruct Hc as (d1 & d2 & d3 & d4).
    split; [repeat split; congruence | exact L].
Qed.

(** Every world a limiter with limits of at least one can reach is one
    in which [wait_if_needed] returns. *)
Lemma reachable_ready (l0 : limiter) (w : world) :
  1 <= requests_per_minute l0 -> 1 <= requests_per_hour l0 ->
  reachable l0 w -> ready w.
Proof.
  intros H1 H2 Hreach.
  destruct (reachable_inv _ _ Hreach) as ([_ _ Pm Ph] & (c1 & c2 & _) & L).
  constructor; try assumption; congruence.
Qed.

Lemma count_within_old (span now : Q) (old : list Q) :
  Forall (fun t => (t < now - span)%Q) old -> count_within span now old = 0%nat.
Proof.
  unfold count_within. induction 1 as [|t old Ht _ IH]; [reflexivity|].
  rewrite filter_cons. case_decide as E; [|exact IH].
  apply Qle_bool_iff in E. lra.
Qed.

Lemma count_within_app (span now : Q) (l1 l2 : list Q) :
  count_within span now (l1 ++ l2)
  = (count_within span now l1 + count_within span now l2)%nat.
Proof. unfold count_within. by rewrite filter_app, length_app. Qed.

Lemma count_within_length (span now : Q) (l : list Q) :
  (count_within span now l <= length l)%nat.
Proof. apply length_filter. Qed.

(** C5. After any sequence of admissions on a freshly built limiter, with
    any time passing in between, a completed [wait_if_needed] leaves at
    most [requests_per_minute] entries in the minute window and at most
    [requests_per_hour] in the hour window; of all the instants ever
    recorded, at most [requests_per_minute] lie in the trailing 60 s and
    at most [requests_per_hour] in the trailing 3600 s; the admission
    appends the one current instant to both windows; and the only entries
    that left a window are a prefix older than the window's span. *)
Theorem window_invariant (l0 : limiter) (w w' : world) (fuel : nat) :
  reachable l0 w ->
  wait_if_needed fuel w = Done (Ok tt) w' ->
  Z.of_nat (length (minute_requests (self w'))) <= requests_per_minute l0 /\
  Z.of_nat (length (hour_requests (self w'))) <= requests_per_hour l0 /\
  Z.of_nat (count_within one_minute (clock w') (admitted (trace w')))
    <= requests_per_minute l0 /\
  Z.of_nat (count_within one_hour (clock w') (admitted (trace w')))
    <= requests_per_hour l0 /\
  admitted (trace w') = admitted (trace w) ++ [clock w'] /\
  (exists dropped kept,
     minute_requests (self w) = dropped ++ kept /\
     minute_requests (self w') = kept ++ [clock w'] /\
     Forall (fun t => (t < clock w' - one_minute)%Q) dropped) /\
  (exists dropped kept,
     hour_requests (self w) = dropped ++ kept /\
     hour_requests (self w') = kept ++ [clock w'] /\
     Forall (fun t => (t < clock w' - one_hour)%Q) dropped).
Proof.
  intros Hreach Hwait.
  destruct (reachable_inv _ _ (reach_wait l0 w w' fuel Hreach Hwait))
    as ([(om & Hom & Fom) (oh & Hoh & Foh) _ _] & (c1 & c2 & _) & _).
  apply wait_if_needed_done in Hwait as (_ & _ & Had).
  pose proof (admission_admitted _ _ Had) as Hadm.
  destruct Had as [_ _ _ Hm Hh _ Lm Lh].
  rewrite c1 in Lm. rewrite c2 in Lh.
  repeat split; try assumption.
  - rewrite Hom, count_within_app, (count_within_old _ _ _ Fom).
    pose proof (count_within_length one_minute (clock w') (minute_requests (self w'))).
    lia.
  - rewrite Hoh, count_within_app, (count_within_old _ _ _ Foh).
    pose proof (count_within_length one_hour (clock w') (hour_requests (self w'))).
    lia.
Qed.

Lemma window_invariant_witness :
  let l0 := mk_limiter 1 1500 5 1 [] [] false in
  let w1 := mk_world (mk_limiter 1 1500 5 1 [0%Q] [0%Q] false) 10
                     [EAcquire; EAdmitted 0; ERelease] in
  let w2 := mk_world (mk_limiter 1 1500 5 1 [(601 # 10)%Q] [0%Q; (601 # 10)%Q] false)
                     (601 # 10)
                     [EAcquire; EAdmitted 0; ERelease; EAcquire;
                      ESleep Admission (501 # 10); EAdmitted (601 # 10); ERelease] in
  wait_if_needed 2 w1 = Done (Ok tt) w2 /\
  Z.of_nat (count_within one_minute (clock w2) (admitted (trace w2))) <= 1.
Proof.
  intros l0 w1 w2.
  assert (H1 : reachable l0 w1).
  { apply (reach_elapse l0 (mk_world _ 0 _) 10); [|discriminate].
    apply (reach_wait l0 (mk_world l0 0 []) _ 1); [by constructor | reflexivity]. }
  assert (H2 : wait_if_needed 2 w1 = Done (Ok tt) w2) by reflexivity.
  split; [exact H2|].
  exact (proj1 (proj2 (proj2 (window_invariant l0 w1 w2 2 H1 H2)))).
Defined.

(** ** The retry loop *)

(** A wait, completed or not, calls nothing, does no backoff sleep and
    leaves the retry budget as it was. *)
Lemma wait_quiet (fuel : nat) (w : world) :
  let w' := final (wait_if_needed fuel w) in
  calls (trace w') = calls (trace w) /\
  sleeps Backoff (trace w') = sleeps Backoff (trace w) /\
  max_retries (self w') = max_retries (self w).
Proof.
  unfold wait_if_needed. destruct (lock_held (self w)); [by simpl|].
  destruct (wait_loop_evolves fuel (acquire w)) as [Hev _].
  destruct Hev as [(_ & _ & c3 & _) _ _ _ _ (ds & Es)]. simpl in c3, Es.
  assert (Hq : calls (trace (final (wait_loop fuel (acquire w)))) = calls (trace w) /\
               sleeps Backoff (trace (final (wait_loop fuel (acquire w))))
               = sleeps Backoff (trace w)).
  { rewrite Es, !calls_app, !sleeps_app, calls_admission_sleeps,
      backoff_admission_sleeps. simpl. by rewrite !app_nil_r. }
  destruct Hq as [Hc Hs].
  destruct (wait_loop fuel (acquire w)) as [[[]|e] w1|w1]; simpl in *;
    rewrite ?calls_app, ?sleeps_app; simpl; rewrite ?app_nil_r; auto.
Qed.

Lemma wait_never_raises (fuel : nat) (w w' : world) (res : result unit) :
  wait_if_needed fuel w = Done res w' -> res = Ok tt.
Proof. intros E. by apply wait_if_needed_done in E as (-> & _). Qed.

(** Whatever the bound on waiting: the operation is called on a prefix of
    the attempts, the backoff sleeps follow the schedule that starts at
    the current delay, and each of them came after an attempt below
    [max_retries]. *)
Lemma retry_loop_trace (fuel : nat) (func : Z -> result pyval)
  (attempts : list Z) (delay : Q) (w : world) :
  let w' := final (retry_loop fuel func attempts delay w) in
  exists k n : nat,
    (n <= k <= length attempts)%nat /\
    calls (trace w') = calls (trace w) ++ take k attempts /\
    sleeps Backoff (trace w') = sleeps Backoff (trace w) ++ backoff_schedule delay n /\
    Forall (fun a => a < max_retries (self w)) (take n attempts) /\
    max_retries (self w') = max_retries (self w).
Proof.
  revert delay w. induction attempts as [|attempt rest IH]; intros delay w; simpl.
  - exists 0%nat, 0%nat. simpl. rewrite !app_nil_r. repeat split; auto.
  - destruct (wait_quiet fuel w) as (Hc & Hs & Hm).
    destruct (wait_if_needed fuel w) as [res w1|w1] eqn:Ew; simpl in Hc, Hs, Hm.
    + rewrite (wait_never_raises _ _ _ _ Ew).
      assert (Stop : forall (r : result pyval),
        let w2 := log (ECall attempt) w1 in
        exists k n : nat,
          (n <= k <= S (length rest))%nat /\
          calls (trace w2) = calls (trace w) ++ take k (attempt :: rest) /\
          sleeps Backoff (trace w2) = sleeps Backoff (trace w) ++ backoff_schedule delay n /\
          Forall (fun a => a < max_retries (self w)) (take n (attempt :: rest)) /\
          max_retries (self w2) = max_retries (self w)).
      { intros _. exists 1%nat, 0%nat. simpl.
        rewrite calls_app, sleeps_app, Hc, Hs. simpl. rewrite app_nil_r.
        repeat split; auto; lia. }
      destruct (func attempt) as [v|e]; [exact (Stop (Ok v))|].
      destruct (is_rate_limit e && (attempt <? max_retries (self (log (ECall attempt) w1))))
        eqn:Eretry; [|exact (Stop (Ok VNone))].
      unfold time_sleep. destruct (Qltb delay 0); [exact (Stop (Ok VNone))|].
      apply andb_true_iff in Eretry as [_ Elt]. apply Z.ltb_lt in Elt. simpl in Elt.
      match goal with |- context [retry_loop fuel func rest ?d ?w3] =>
        destruct (IH d w3) as (k & n & Hkn & Hcalls & Hsleeps & Hlt & Hmax) end.
      simpl in Hcalls, Hsleeps, Hlt, Hmax.
      exists (S k), (S n). simpl.
      split; [lia|].
      split; [rewrite Hcalls, !calls_app, Hc; simpl;
              by rewrite ?app_nil_r, <- ?app_assoc|].
      split; [rewrite Hsleeps, !sleeps_app, Hs; simpl;
              by rewrite ?app_nil_r, <- ?app_assoc|].
      split; [constructor; [lia | by rewrite <- Hm] | congruence].
    + exists 0%nat, 0%nat. simpl. rewrite !app_nil_r. repeat split; auto; lia.
Qed.

Lemma backoff_delay_nonneg (d : Q) : (0 <= d)%Q -> (0 <= Qmin (d * 2) 60)%Q.
Proof. intros H. apply Q.min_glb; lra. Qed.

(** When every attempt is refused with a rate-limit error, a limiter that
    can admit retries until the budget is spent: one call per attempt,
    a backoff sleep between consecutive calls, and the last error
    propagates. *)
Lemma retry_loop_exhausts (func : Z -> result pyval) (n : nat) (a : Z)
  (delay : Q) (w : world) :
  ready w ->
  (0 <= delay)%Q ->
  max_retries (self w) = a + Z.of_nat n ->
  (forall k, exists e, func k = Raise e /\ is_rate_limit e = true) ->
  exists w',
    retry_loop admission_fuel func (seqZ a (Z.of_nat (S n))) delay w
      = Done (func (a + Z.of_nat n)) w' /\
    calls (trace w') = calls (trace w) ++ seqZ a (Z.of_nat (S n)) /\
    sleeps Backoff (trace w') = sleeps Backoff (trace w) ++ backoff_schedule delay n.
Proof.
  intros Hready Hdelay Hmax Hfunc.
  revert a delay w Hready Hdelay Hmax.
  induction n as [|n IH]; intros a delay w Hready Hdelay Hmax.
  - change (seqZ a (Z.of_nat 1)) with [a]. cbn [retry_loop].
    destruct (wait_if_needed_returns w Hready) as (w1 & -> & Had & Hr1).
    destruct Had as [(_ & _ & c3 & _) _ _ _ _ (ds & Et) _ _].
    rewrite Z.add_0_r. destruct (Hfunc a) as (e & -> & Hrl).
    simpl. rewrite c3, Hmax, Z.add_0_r, Z.ltb_irrefl, andb_false_r.
    eexists. split; [reflexivity|]. simpl.
    rewrite Et, !calls_app, !sleeps_app. simpl.
    rewrite !calls_app, !sleeps_app, calls_admission_sleeps, backoff_admission_sleeps.
    simpl. by rewrite !app_nil_r.
  - rewrite seqZ_cons by lia.
    replace (Z.pred (Z.of_nat (S (S n)))) with (Z.of_nat (S n)) by lia.
    cbn [retry_loop].
    destruct (wait_if_needed_returns w Hready) as (w1 & -> & Had & Hr1).
    destruct Had as [(_ & _ & c3 & _) _ _ _ _ (ds & Et) _ _].
    destruct (Hfunc a) as (e & -> & Hrl).
    simpl. rewrite c3, Hmax, Hrl.
    replace (a <? a + Z.of_nat (S n)) with true by (symmetry; apply Z.ltb_lt; lia).
    simpl. rewrite time_sleep_ok by exact Hdelay.
    match goal with |- context [retry_loop _ func _ ?d ?w3] =>
      destruct (IH (Z.succ a) d w3) as (w' & Hrun & Hcalls & Hsleeps) end.
    + destruct Hr1 as [R1 R2 L Rm Rh]. constructor; simpl; try assumption.
      * eapply Forall_impl; [exact Rm|]. intros t Ht. simpl in Ht. lra.
      * eapply Forall_impl; [exact Rh|]. intros t Ht. simpl in Ht. lra.
    + by apply backoff_delay_nonneg.
    + simpl. rewrite c3, Hmax. lia.
    + exists w'. split; [rewrite Hrun; f_equal; f_equal; lia|].
      rewrite Hcalls, Hsleeps. simpl.
      rewrite Et, !calls_app, !sleeps_app. simpl.
      rewrite !calls_app, !sleeps_app, calls_admission_sleeps, backoff_admission_sleeps.
      simpl. rewrite !app_nil_r, <- !app_assoc. simpl. split; [|reflexivity].
      repeat f_equal; lia.
Qed.

(** The first attempt ends the loop when the operation returns, or raises
    an error that is not retried. *)
Lemma retry_loop_first (func : Z -> result pyval) (attempt : Z) (rest : list Z)
  (delay : Q) (w : world) :
  ready w ->
  match func attempt with
  | Ok _ => True
  | Raise e => is_rate_limit e && (attempt <? max_retries (self w)) = false
  end ->
  exists w',
    retry_loop admission_fuel func (attempt :: rest) delay w = Done (func attempt) w' /\
    calls (trace w') = calls (trace w) ++ [attempt] /\
    sleeps Backoff (trace w') = sleeps Backoff (trace w).
Proof.
  intros Hready Hstop. cbn [retry_loop].
  destruct (wait_if_needed_returns w Hready) as (w1 & -> & Had & _).
  destruct Had as [(_ & _ & c3 & _) _ _ _ _ (ds & Et) _ _].
  assert (Ht : calls (trace (log (ECall attempt) w1)) = calls (trace w) ++ [attempt] /\
               sleeps Backoff (trace (log (ECall attempt) w1)) = sleeps Backoff (trace w)).
  { simpl. rewrite Et, !calls_app, !sleeps_app. simpl.
    rewrite !calls_app, !sleeps_app, calls_admission_sleeps, backoff_admission_sleeps.
    simpl. by rewrite !app_nil_r. }
  destruct (func attempt) as [v|e]; [by eexists|].
  simpl. rewrite c3, Hstop. by eexists.
Qed.

(** ** The backoff schedule *)

Lemma backoff_schedule_bounds (d : Q) (n : nat) :
  (0 <= d)%Q -> (d <= 60)%Q ->
  Forall (fun x => (d <= x)%Q /\ (x <= 60)%Q) (backoff_schedule d n).
Proof.
  revert d. induction n as [|n IH]; intros d H0 H60; simpl; constructor.
  - split; [apply Qle_refl | exact H60].
  - assert (Hd : (d <= Qmin (d * 2) 60)%Q) by (apply Q.min_glb; lra).
    eapply Forall_impl; [apply IH; [lra | apply Q.le_min_r]|].
    intros x [Hx1 Hx2]. split; [lra | exact Hx2].
Qed.

Lemma backoff_schedule_sorted (d : Q) (n : nat) :
  (0 <= d)%Q -> (d <= 60)%Q -> StronglySorted Qle (backoff_schedule d n).
Proof.
  revert d. induction n as [|n IH]; intros d H0 H60; simpl; constructor.
  - apply IH; [by apply backoff_delay_nonneg | apply Q.le_min_r].
  - assert (Hd : (d <= Qmin (d * 2) 60)%Q) by (apply Q.min_glb; lra).
    eapply Forall_impl;
      [apply backoff_schedule_bounds; [by apply backoff_delay_nonneg | apply Q.le_min_r]|].
    intros x [Hx _]. simpl. lra.
Qed.

Lemma backoff_schedule_at_ceiling (n : nat) : backoff_schedule 60 n = replicate n 60%Q.
Proof. induction n as [|n IH]; simpl; [reflexivity|]. f_equal. exact IH. Qed.

(** From an initial delay of one second: 1, 2, 4, 8, 16, 32, then 60. *)
Lemma backoff_schedule_from_one (n : nat) :
  backoff_schedule 1 n
  = take n ([1; 2; 4; 8; 16; 32]%Q ++ replicate (n - 6) 60%Q).
Proof.
  do 6 (destruct n as [|n]; [reflexivity|]).
  change (backoff_schedule 1 (S (S (S (S (S (S n)))))))
    with ([1; 2; 4; 8; 16; 32]%Q ++ backoff_schedule 60 n).
  rewrite backoff_schedule_at_ceiling.
  replace (S (S (S (S (S (S n))))) - 6)%nat with n by lia.
  change (S (S (S (S (S (S n)))))) with (length [1; 2; 4; 8; 16; 32]%Q + n)%nat.
  rewrite take_app_add. by rewrite firstn_all2 by (rewrite length_replicate; lia).
Qed.

(** The classifier on sample messages: the digits 429 anywhere, or the
    words "rate limit" in any letter case; other wordings are not matched. *)
Example is_rate_limit_samples :
  is_rate_limit (mk_exn "ClientError" "429 RESOURCE_EXHAUSTED") = true /\
  is_rate_limit (mk_exn "APIError" "Rate Limit exceeded for model") = true /\
  is_rate_limit (mk_exn "APIError" "Too Many Requests") = false /\
  is_rate_limit (mk_exn "ValueError" "prompt must not be empty") = false.
Proof. repeat split; reflexivity. Qed.

(** ** The claims about retries *)

(** C6. [execute_with_retry] calls the wrapped operation at most
    [max_retries + 1] times, whatever happens.  On a limiter that can
    admit (limits of at least one, nothing of the future in its windows,
    a non-negative initial delay): with [max_retries = 2] and an
    operation that always raises a rate-limit error there are exactly the
    three attempts 0, 1, 2, with two backoff sleeps, and the error of the
    last attempt propagates; with [max_retries = 0] there is exactly one
    attempt, whose result or error is the outcome, and no backoff sleep. *)
Theorem execute_with_retry_attempts (func : Z -> result pyval) (w : world) :
  ready w ->
  (0 <= initial_retry_delay (self w))%Q ->
  (forall fuel,
     exists k : nat,
       calls (trace (final (execute_with_retry fuel func w)))
       = calls (trace w) ++ take k (seqZ 0 (max_retries (self w) + 1)) /\
       Z.of_nat (length (take k (seqZ 0 (max_retries (self w) + 1))))
       <= Z.max 0 (max_retries (self w) + 1)) /\
  (max_retries (self w) = 2 ->
   (forall k, exists e, func k = Raise e /\ is_rate_limit e = true) ->
   exists fuel w',
     execute_with_retry fuel func w = Done (func 2) w' /\
     calls (trace w') = calls (trace w) ++ [0; 1; 2] /\
     length (sleeps Backoff (trace w')) = (length (sleeps Backoff (trace w)) + 2)%nat) /\
  (max_retries (self w) = 0 ->
   exists fuel w',
     execute_with_retry fuel func w = Done (func 0) w' /\
     calls (trace w') = calls (trace w) ++ [0] /\
     sleeps Backoff (trace w') = sleeps Backoff (trace w)).
Proof.
  intros Hready Hdelay. split; [|split].
  - intros fuel. unfold execute_with_retry.
    destruct (retry_loop_trace fuel func (seqZ 0 (max_retries (self w) + 1))
                (initial_retry_delay (self w)) w) as (k & n & Hkn & Hcalls & _).
    exists k. split; [exact Hcalls|].
    rewrite length_take, length_seqZ. lia.
  - intros Hmax Hfunc. unfold execute_with_retry. rewrite Hmax.
    destruct (retry_loop_exhausts func 2 0 (initial_retry_delay (self w)) w)
      as (w' & Hrun & Hcalls & Hsleeps); try assumption.
    exists admission_fuel, w'. split; [exact Hrun|]. split; [exact Hcalls|].
    rewrite Hsleeps, length_app. reflexivity.
  - intros Hmax. unfold execute_with_retry. rewrite Hmax.
    change (seqZ 0 (0 + 1)) with [0].
    destruct (retry_loop_first func 0 [] (initial_retry_delay (self w)) w Hready)
      as (w' & Hrun & Hcalls & Hsleeps).
    { destruct (func 0); [exact I|]. rewrite Hmax. apply andb_false_r. }
    by exists admission_fuel, w'.
Qed.

Lemma execute_with_retry_attempts_witness :
  let func := fun _ : Z => @Raise pyval (mk_exn "ClientError" "429 RESOURCE_EXHAUSTED") in
  let w := mk_world (mk_limiter 30 1500 2 1 [] [] false) 0 [] in
  exists fuel w',
    execute_with_retry fuel func w
      = Done (Raise (mk_exn "ClientError" "429 RESOURCE_EXHAUSTED")) w' /\
    calls (trace w') = [0; 1; 2].
Proof.
  intros func w.
  assert (Hready : ready w) by (constructor; simpl; try constructor; lia).
  assert (Hdelay : (0 <= initial_retry_delay (self w))%Q) by discriminate.
  destruct (execute_with_retry_attempts func w Hready Hdelay) as (_ & Hthree & _).
  destruct Hthree as (fuel & w' & Hrun & Hcalls & _).
  - reflexivity.
  - intros k. eexists. split; reflexivity.
  - exists fuel, w'. split; [exact Hrun | exact Hcalls].
Defined.

(** C7. When the operation's first call raises an error that is not
    classified as a rate-limit error, [execute_with_retry] ends there,
    whatever [max_retries] (a non-negative count) is: one attempt, no
    backoff sleep, and the very same error propagates.  It does so on
    every limiter that can admit; and on any limiter, a run that ends has
    ended that way. *)
Theorem non_rate_limit_error_propagates (func : Z -> result pyval) (w : world)
  (e : exn) :
  ready w ->
  0 <= max_retries (self w) ->
  func 0 = Raise e ->
  is_rate_limit e = false ->
  (exists fuel w',
     execute_with_retry fuel func w = Done (Raise e) w' /\
     calls (trace w') = calls (trace w) ++ [0] /\
     sleeps Backoff (trace w') = sleeps Backoff (trace w)) /\
  (forall fuel,
     match execute_with_retry fuel func w with
     | Done res w' =>
         res = Raise e /\
         calls (trace w') = calls (trace w) ++ [0] /\
         sleeps Backoff (trace w') = sleeps Backoff (trace w)
     | Diverge w' => calls (trace w') = calls (trace w)
     end).
Proof.
  intros Hready Hmax Hfunc Hrl.
  assert (Hseq : seqZ 0 (max_retries (self w) + 1)
                 = 0 :: seqZ 1 (max_retries (self w))).
  { rewrite seqZ_cons by lia. f_equal. f_equal. lia. }
  split.
  - unfold execute_with_retry. rewrite Hseq.
    destruct (retry_loop_first func 0 (seqZ 1 (max_retries (self w)))
                (initial_retry_delay (self w)) w Hready)
      as (w' & Hrun & Hcalls & Hsleeps).
    { rewrite Hfunc, Hrl. reflexivity. }
    rewrite Hfunc in Hrun. by exists admission_fuel, w'.
  - intros fuel. unfold execute_with_retry. rewrite Hseq. cbn [retry_loop].
    destruct (wait_quiet fuel w) as (Hc & Hs & _).
    destruct (wait_if_needed fuel w) as [res w1|w1] eqn:Ew; simpl in Hc, Hs.
    + rewrite (wait_never_raises _ _ _ _ Ew), Hfunc, Hrl. simpl.
      rewrite calls_app, sleeps_app, Hc, Hs. simpl. by rewrite app_nil_r.
    + exact Hc.
Qed.

Lemma non_rate_limit_error_propagates_witness :
  let e := mk_exn "ValueError" "prompt must not be empty" in
  let func := fun _ : Z => @Raise pyval e in
  let w := mk_world (mk_limiter 30 1500 5 1 [] [] false) 0 [] in
  exists fuel w',
    execute_with_retry fuel func w = Done (Raise e) w' /\ calls (trace w') = [0].
Proof.
  intros e func w.
  assert (Hready : ready w) by (constructor; simpl; try constructor; lia).
  destruct (non_rate_limit_error_propagates func w e Hready) as [(fuel & w' & Hrun & Hcalls & _) _].
  - discriminate.
  - reflexivity.
  - reflexivity.
  - exists fuel, w'. split; [exact Hrun | exact Hcalls].
Defined.

(** C9, as stated, fails: the ceiling of 60 s is applied to the doubled
    delay only.  With an initial delay of 100 s the two backoff sleeps
    are 100 s and then 60 s: the first exceeds the ceiling and the
    sequence decreases. *)
Lemma backoff_first_delay_uncapped :
  let func := fun _ : Z => @Raise pyval (mk_exn "ClientError" "429 RESOURCE_EXHAUSTED") in
  let w := mk_world (mk_limiter 30 1500 2 100 [] [] false) 0 [] in
  sleeps Backoff (trace (final (execute_with_retry 1 func w))) = [100%Q; 60%Q].
Proof. vm_compute. reflexivity. Qed.

(** C9, amended.  Provided the initial delay lies between 0 and 60 s, the
    backoff sleeps of one [execute_with_retry] call are non-decreasing and
    at most 60 s: they are the first [n] delays of the schedule that
    starts at the initial delay and doubles up to the ceiling, one per
    retry and at most [max_retries] of them; from an initial delay of 1 s
    they are 1, 2, 4, 8, 16, 32, 60, 60, ... *)
Theorem backoff_delays_monotone_capped (fuel : nat) (func : Z -> result pyval)
  (w : world) :
  (0 <= initial_retry_delay (self w))%Q ->
  (initial_retry_delay (self w) <= 60)%Q ->
  exists n : nat,
    sleeps Backoff (trace (final (execute_with_retry fuel func w)))
    = sleeps Backoff (trace w) ++ backoff_schedule (initial_retry_delay (self w)) n /\
    Z.of_nat n <= Z.max 0 (max_retries (self w)) /\
    StronglySorted Qle (backoff_schedule (initial_retry_delay (self w)) n) /\
    Forall (fun d => (d <= 60)%Q) (backoff_schedule (initial_retry_delay (self w)) n) /\
    (initial_retry_delay (self w) = 1%Q ->
     backoff_schedule (initial_retry_delay (self w)) n
     = take n ([1; 2; 4; 8; 16; 32]%Q ++ replicate (n - 6) 60%Q)).
Proof.
  intros H0 H60. unfold execute_with_retry.
  destruct (retry_loop_trace fuel func (seqZ 0 (max_retries (self w) + 1))
              (initial_retry_delay (self w)) w) as (k & n & Hkn & _ & Hsleeps & Hlt & _).
  exists n. split; [exact Hsleeps|]. split; [|split; [|split]].
  - destruct n as [|n]; [lia|].
    rewrite length_seqZ in Hkn.
    assert (Hn : seqZ 0 (max_retries (self w) + 1) !! n = Some (0 + Z.of_nat n)).
    { apply lookup_seqZ_lt. lia. }
    rewrite Forall_forall in Hlt.
    specialize (Hlt (0 + Z.of_nat n)).
    assert (Hin : (0 + Z.of_nat n) ∈ take (S n) (seqZ 0 (max_retries (self w) + 1))).
    { apply list_elem_of_lookup. exists n. rewrite lookup_take_lt by lia. exact Hn. }
    specialize (Hlt Hin). lia.
  - by apply backoff_schedule_sorted.
  - eapply Forall_impl; [by apply backoff_schedule_bounds|]. by intros x [_ Hx].
  - intros ->. apply backoff_schedule_from_one.
Qed.

Lemma backoff_delays_monotone_capped_witness :
  let func := fun _ : Z => @Raise pyval (mk_exn "ClientError" "429 RESOURCE_EXHAUSTED") in
  let w := mk_world (mk_limiter 30 1500 8 1 [] [] false) 0 [] in
  sleeps Backoff (trace (final (execute_with_retry 1 func w)))
    = [1; 2; 4; 8; 16; 32; 60; 60]%Q /\
  exists n : nat,
    sleeps Backoff (trace (final (execute_with_retry 1 func w)))
    = backoff_schedule 1 n /\
    StronglySorted Qle (backoff_schedule 1 n).
Proof.
  intros func w. split; [vm_compute; reflexivity|].
  destruct (backoff_delays_monotone_capped 1 func w) as (n & Hs & _ & Hsorted & _).
  - discriminate.
  - discriminate.
  - exists n. split; [exact Hs | exact Hsorted].
Defined.

End LimiterFacts.

(* ===================================================================== *)
(** * More about the rate limiter *)
(* ===================================================================== *)

Module LimiterMore.
Import PyStr RateLimiter LimiterSpec LimiterFacts.

(** ** The purge on a chronological window *)

Lemma popleft_while_older_length (bound : Q) (q : list Q) :
  (length (popleft_while_older bound q) <= length q)%nat.
Proof.
  destruct (popleft_while_older_split bound q) as (dropped & E & _).
  rewrite E at 2. rewrite length_app. lia.
Qed.

Lemma not_older_all (bound : Q) (q : list Q) :
  Forall (fun t => (bound <= t)%Q) q -> not_older bound q = q.
Proof.
  unfold not_older. induction 1 as [|t q Ht _ IH]; [reflexivity|].
  rewrite filter_cons. apply Qle_bool_iff in Ht.
  case_decide; [by rewrite IH | contradiction].
Qed.

Lemma popleft_chronological (bound : Q) (q : list Q) :
  chronological q -> popleft_while_older bound q = not_older bound q.
Proof.
  unfold chronological. induction 1 as [|t q Hs IH Ht]; [reflexivity|].
  simpl. destruct (Qltb t bound) eqn:E.
  - apply Qltb_true in E. unfold not_older. rewrite filter_cons.
    case_decide as Hle; [apply Qle_bool_iff in Hle; lra|]. exact IH.
  - apply Qltb_false in E. symmetry. apply not_older_all.
    constructor; [exact E|].
    eapply Forall_impl; [exact Ht|]. intros x Hx. simpl in Hx. lra.
Qed.

(** X1. On windows that are in chronological order, the purge keeps
    exactly the entries that are not older than the window's span, in
    their order, and touches nothing else of the limiter. *)
Theorem clean_keeps_exactly_recent (now : Q) (l : limiter) :
  chronological (minute_requests l) ->
  chronological (hour_requests l) ->
  minute_requests (_clean_old_requests now l)
    = not_older (now - one_minute) (minute_requests l) /\
  hour_requests (_clean_old_requests now l)
    = not_older (now - one_hour) (hour_requests l) /\
  same_config l (_clean_old_requests now l) /\
  lock_held (_clean_old_requests now l) = lock_held l.
Proof.
  intros Hm Hh. unfold _clean_old_requests. simpl.
  rewrite !popleft_chronological by assumption.
  repeat split.
Qed.

Lemma clean_keeps_exactly_recent_witness :
  let l := mk_limiter 2 100 5 1 [0; 30; 70]%Q [0; 30; 70]%Q false in
  minute_requests (_clean_old_requests 100 l) = [70%Q] /\
  hour_requests (_clean_old_requests 100 l) = [0; 30; 70]%Q.
Proof.
  intros l.
  assert (H : chronological [0; 30; 70]%Q).
  { repeat constructor; discriminate. }
  destruct (clean_keeps_exactly_recent 100 l H H) as (Em & Eh & _).
  split; [rewrite Em | rewrite Eh]; reflexivity.
Defined.

(** ** Invariants of the windows *)

Lemma popleft_nested (b b' : Q) (older q : list Q) :
  (b <= b')%Q ->
  exists older', popleft_while_older b (older ++ q)
                 = older' ++ popleft_while_older b' q.
Proof.
  intros Hb. induction older as [|p older IH]; simpl.
  - induction q as [|t q IHq]; simpl; [by exists []|].
    destruct (Qltb t b) eqn:E.
    + apply Qltb_true in E.
      assert (E' : Qltb t b' = true) by (apply Qltb_true; lra).
      rewrite E'. exact IHq.
    + destruct (popleft_while_older_split b' (t :: q)) as (dropped & Hq & _).
      exists dropped. exact Hq.
  - destruct (Qltb p b); [exact IH|].
    destruct (popleft_while_older_split b' q) as (dropped & Hq & _).
    exists (p :: older ++ dropped). simpl. rewrite <- app_assoc. by rewrite <- Hq.
Qed.

Lemma clean_nested (now : Q) (l : limiter) :
  nested l -> nested (_clean_old_requests now l).
Proof.
  intros [older E]. unfold nested, _clean_old_requests. simpl. rewrite E.
  apply popleft_nested. unfold one_minute, one_hour. lra.
Qed.

Lemma clean_chronological (now : Q) (l : limiter) :
  chronological (minute_requests l) /\ chronological (hour_requests l) ->
  chronological (minute_requests (_clean_old_requests now l)) /\
  chronological (hour_requests (_clean_old_requests now l)).
Proof.
  intros [Hm Hh]. unfold _clean_old_requests. simpl.
  destruct (popleft_while_older_split (now - one_minute) (minute_requests l))
    as (dm & Em & _).
  destruct (popleft_while_older_split (now - one_hour) (hour_requests l))
    as (dh & Eh & _).
  rewrite Em in Hm. rewrite Eh in Hh.
  split; eapply StronglySorted_app_1_r; eassumption.
Qed.

Lemma can_make_request_snd (w : world) :
  snd (_can_make_request w) = set_self w (_clean_old_requests (clock w) (self w)).
Proof. reflexivity. Qed.

Lemma get_wait_time_snd (w : world) :
  snd (_get_wait_time w) = set_self w (_clean_old_requests (clock w) (self w)).
Proof. unfold _get_wait_time. by destruct (minute_requests _). Qed.

(** The wait loop keeps whatever the purge keeps. *)
Lemma wait_loop_preserves (P : limiter -> Prop) :
  (forall now l, P l -> P (_clean_old_requests now l)) ->
  forall fuel w, P (self w) -> P (self (final (wait_loop fuel w))).
Proof.
  intros Hclean. induction fuel as [|fuel IH]; intros w HP; cbn [wait_loop].
  - exact HP.
  - pose proof (can_make_request_snd w) as E1.
    destruct (_can_make_request w) as [can w1]. simpl in E1. subst w1.
    destruct can; [simpl; by apply Hclean|].
    pose proof (get_wait_time_snd (set_self w (_clean_old_requests (clock w) (self w))))
      as E2.
    destruct (_get_wait_time _) as [wait_time w2]. simpl in E2. subst w2.
    destruct (Qltb 0 wait_time); unfold time_sleep;
      destruct (Qltb _ 0); simpl; try (by repeat apply Hclean);
      apply IH; simpl; by repeat apply Hclean.
Qed.

Lemma wait_if_needed_nested (fuel : nat) (w w' : world) (res : result unit) :
  nested (self w) -> wait_if_needed fuel w = Done res w' -> nested (self w').
Proof.
  intros Hn. unfold wait_if_needed. destruct (lock_held (self w)); [discriminate|].
  pose proof (wait_loop_preserves nested clean_nested fuel (acquire w) Hn) as H1.
  destruct (wait_loop fuel (acquire w)) as [[[]|e] w1|w1]; try discriminate.
  - intros [= _ <-]. destruct H1 as [older E]. exists older. simpl in *.
    rewrite E. by rewrite app_assoc.
  - intros [= _ <-]. exact H1.
Qed.

Lemma reachable_nested (l0 : limiter) (w : world) : reachable l0 w -> nested (self w).
Proof.
  induction 1 as [t0 Hm Hh Hl|w d _ IH Hd|w w' fuel _ IH Hw].
  - exists []. simpl. by rewrite Hm, Hh.
  - exact IH.
  - by apply (wait_if_needed_nested fuel w w' (Ok tt)).
Qed.

Lemma chronological_snoc (l : list Q) (t : Q) :
  chronological l -> Forall (fun x => (x <= t)%Q) l -> chronological (l ++ [t]).
Proof.
  intros Hs Hle. apply StronglySorted_app. split; [|split; [exact Hs | repeat constructor]].
  intros x1 x2 H1 ->%list_elem_of_singleton.
  rewrite Forall_forall in Hle. by apply Hle.
Qed.

Lemma reachable_history (l0 : limiter) (w : world) :
  reachable l0 w ->
  chronological (admitted (trace w)) /\
  Forall (fun t => (t <= clock w)%Q) (admitted (trace w)).
Proof.
  induction 1 as [t0 Hm Hh Hl|w d _ [IHs IHp] Hd|w w' fuel _ [IHs IHp] Hw]; simpl.
  - split; constructor.
  - split; [exact IHs|]. eapply Forall_impl; [exact IHp|].
    intros t Ht. simpl in Ht. lra.
  - apply wait_if_needed_done in Hw as (_ & _ & Had).
    rewrite (admission_admitted _ _ Had). destruct Had as [_ _ T _ _ _ _ _].
    assert (Hlater : Forall (fun t => (t <= clock w')%Q) (admitted (trace w))).
    { eapply Forall_impl; [exact IHp|]. intros t Ht. simpl in Ht. lra. }
    split; [by apply chronological_snoc|].
    apply Forall_app. split; [exact Hlater | repeat constructor; apply Qle_refl].
Qed.

(** A sample history: one request per minute allowed, a first request
    at time 0 and a second caller arriving at time 10. *)
Lemma sample_run_reachable :
  reachable (mk_limiter 1 1500 5 1 [] [] false)
    (mk_world (mk_limiter 1 1500 5 1 [(601 # 10)%Q] [0%Q; (601 # 10)%Q] false)
              (601 # 10)
              [EAcquire; EAdmitted 0; ERelease; EAcquire;
               ESleep Admission (501 # 10); EAdmitted (601 # 10); ERelease]).
Proof.
  set (l0 := mk_limiter 1 1500 5 1 [] [] false).
  set (w1 := mk_world (mk_limiter 1 1500 5 1 [0%Q] [0%Q] false) 0
                      [EAcquire; EAdmitted 0; ERelease]).
  apply (reach_wait l0 (elapse 10 w1) _ 2); [|reflexivity].
  apply reach_elapse; [|discriminate].
  apply (reach_wait l0 (mk_world l0 0 []) w1 1); [by constructor | reflexivity].
Qed.

(** X2. In every world a freshly built limiter can reach, both windows are
    in chronological order, hold no instant later than the clock, and the
    minute window is the tail end of the hour window: every request that
    counts against the minute limit also counts against the hour limit. *)
Theorem windows_chronological_nested (l0 : limiter) (w : world) :
  reachable l0 w ->
  chronological (minute_requests (self w)) /\
  chronological (hour_requests (self w)) /\
  nested (self w) /\
  Forall (fun t => (t <= clock w)%Q) (hour_requests (self w)).
Proof.
  intros Hreach.
  destruct (reachable_inv _ _ Hreach) as ([(om & Hom & _) (oh & Hoh & _) _ Ph] & _ & _).
  destruct (reachable_history _ _ Hreach) as [Hs _].
  split; [|split; [|split; [by apply (reachable_nested l0) | exact Ph]]].
  - rewrite Hom in Hs. by apply StronglySorted_app_1_r in Hs.
  - rewrite Hoh in Hs. by apply StronglySorted_app_1_r in Hs.
Qed.

Lemma windows_chronological_nested_witness :
  let l0 := mk_limiter 1 1500 5 1 [] [] false in
  let w2 := mk_world (mk_limiter 1 1500 5 1 [(601 # 10)%Q] [0%Q; (601 # 10)%Q] false)
                     (601 # 10)
                     [EAcquire; EAdmitted 0; ERelease; EAcquire;
                      ESleep Admission (501 # 10); EAdmitted (601 # 10); ERelease] in
  reachable l0 w2 /\ nested (self w2) /\ chronological (hour_requests (self w2)).
Proof.
  intros l0 w2.
  pose proof sample_run_reachable as H2.
  split; [exact H2|].
  destruct (windows_chronological_nested l0 w2 H2) as (_ & Hh & Hn & _).
  split; assumption.
Defined.

(** ** Spacing of admissions *)

Lemma spaced_snoc (n : nat) (span t : Q) (hist old window : list Q) :
  spaced n span hist ->
  hist ++ [t] = old ++ window ->
  Forall (fun x => (x < t - span)%Q) old ->
  (length window <= n)%nat ->
  spaced n span (hist ++ [t]).
Proof.
  intros IH E Fold Hlen i a b Ha Hb.
  destruct (decide (i + n < length hist)%nat) as [Hin|Hout].
  - rewrite lookup_app_l in Hb by exact Hin.
    rewrite lookup_app_l in Ha by lia.
    by apply (IH i).
  - pose proof (lookup_lt_Some _ _ _ Hb) as Hlt.
    rewrite length_app in Hlt. simpl in Hlt.
    assert (Hi : (i + n = length hist)%nat) by lia.
    rewrite Hi, list_lookup_middle in Hb by reflexivity. injection Hb as <-.
    assert (Hlen' : (length hist + 1 = length old + length window)%nat).
    { pose proof (f_equal length E) as HL. rewrite !length_app in HL. exact HL. }
    rewrite E, lookup_app_l in Ha by lia.
    rewrite Forall_forall in Fold.
    assert (Hold : (a < t - span)%Q).
    { apply Fold. apply list_elem_of_lookup. by exists i. }
    lra.
Qed.

(** X3. Rate limiting proper: among the instants at which a limiter has
    admitted requests, any two that are [requests_per_minute] places
    apart are more than 60 s apart, and any two that are
    [requests_per_hour] places apart are more than 3600 s apart.  So no
    interval of 60 s (3600 s) that ends at an admission holds more than
    the configured number of admissions. *)
Theorem admissions_are_spaced (l0 : limiter) (w : world) :
  reachable l0 w ->
  spaced (Z.to_nat (requests_per_minute l0)) one_minute (admitted (trace w)) /\
  spaced (Z.to_nat (requests_per_hour l0)) one_hour (admitted (trace w)).
Proof.
  induction 1 as [t0 Hm Hh Hl|w d _ IH Hd|w w' fuel Hreach [IHm IHh] Hw].
  - split; intros i a b Ha; simpl in Ha; by rewrite lookup_nil in Ha.
  - exact IH.
  - destruct (reachable_inv _ _ (reach_wait l0 w w' fuel Hreach Hw))
      as ([(om & Hom & Fom) (oh & Hoh & Foh) _ _] & (c1 & c2 & _) & _).
    apply wait_if_needed_done in Hw as (_ & _ & Had).
    pose proof (admission_admitted _ _ Had) as Hadm.
    destruct Had as [_ _ _ _ _ _ Lm Lh].
    rewrite Hadm in Hom, Hoh. rewrite Hadm.
    split.
    + apply (spaced_snoc _ _ _ _ om (minute_requests (self w'))); try assumption. lia.
    + apply (spaced_snoc _ _ _ _ oh (hour_requests (self w'))); try assumption. lia.
Qed.

Lemma admissions_are_spaced_witness :
  let l0 := mk_limiter 1 1500 5 1 [] [] false in
  let w2 := mk_world (mk_limiter 1 1500 5 1 [(601 # 10)%Q] [0%Q; (601 # 10)%Q] false)
                     (601 # 10)
                     [EAcquire; EAdmitted 0; ERelease; EAcquire;
                      ESleep Admission (501 # 10); EAdmitted (601 # 10); ERelease] in
  reachable l0 w2 /\ spaced 1 one_minute [0%Q; (601 # 10)%Q].
Proof.
  intros l0 w2.
  pose proof sample_run_reachable as H2.
  split; [exact H2|].
  exact (proj1 (admissions_are_spaced l0 w2 H2)).
Defined.

(** ** How long a caller waits *)

(** X4. A caller is never delayed when there is room: if both windows
    hold fewer entries than their limits, [wait_if_needed] returns at
    once, without sleeping and at the same clock reading, having purged
    the windows and appended that reading to both. *)
Theorem admitted_at_once_when_capacity (fuel : nat) (w : world) :
  lock_held (self w) = false ->
  Z.of_nat (length (minute_requests (self w))) < requests_per_minute (self w) ->
  Z.of_nat (length (hour_requests (self w))) < requests_per_hour (self w) ->
  exists w',
    wait_if_needed (S fuel) w = Done (Ok tt) w' /\
    clock w' = clock w /\
    trace w' = trace w ++ [EAcquire; EAdmitted (clock w); ERelease] /\
    minute_requests (self w')
      = popleft_while_older (clock w - one_minute) (minute_requests (self w))
        ++ [clock w] /\
    hour_requests (self w')
      = popleft_while_older (clock w - one_hour) (hour_requests (self w))
        ++ [clock w].
Proof.
  intros Hlock Hm Hh. unfold wait_if_needed. rewrite Hlock. cbn [wait_loop].
  unfold _can_make_request. simpl.
  pose proof (popleft_while_older_length (clock w - one_minute) (minute_requests (self w))).
  pose proof (popleft_while_older_length (clock w - one_hour) (hour_requests (self w))).
  replace (Z.of_nat (length (popleft_while_older (clock w - one_minute) _))
           <? requests_per_minute (self w)) with true
    by (symmetry; apply Z.ltb_lt; lia).
  replace (Z.of_nat (length (popleft_while_older (clock w - one_hour) _))
           <? requests_per_hour (self w)) with true
    by (symmetry; apply Z.ltb_lt; lia).
  simpl. eexists. split; [reflexivity|]. simpl.
  rewrite <- !app_assoc. repeat split.
Qed.

Lemma admitted_at_once_when_capacity_witness :
  let w := mk_world (mk_limiter 2 1500 5 1 [0%Q] [0%Q] false) 10 [] in
  exists w',
    wait_if_needed 1 w = Done (Ok tt) w' /\ clock w' = 10%Q /\
    minute_requests (self w') = [0; 10]%Q.
Proof.
  intros w.
  destruct (admitted_at_once_when_capacity 0 w) as (w' & Hrun & Hclock & _ & Hm & _).
  - reflexivity.
  - simpl. lia.
  - simpl. lia.
  - exists w'. split; [exact Hrun|]. split; [exact Hclock|]. exact Hm.
Defined.

Lemma get_wait_time_at_most_minute (w : world) :
  Forall (fun t => (t <= clock w)%Q) (minute_requests (self w)) ->
  (fst (_get_wait_time w) <= one_minute)%Q.
Proof.
  intros Hpast. unfold _get_wait_time, _clean_old_requests. simpl.
  destruct (popleft_while_older_split (clock w - one_minute) (minute_requests (self w)))
    as (dropped & E & _).
  destruct (popleft_while_older _ (minute_requests (self w))) as [|oldest rest]; simpl.
  - unfold one_minute. lra.
  - rewrite E in Hpast. apply Forall_app in Hpast as [_ Hpast].
    apply Forall_cons in Hpast as [Hold _].
    apply Q.max_lub; unfold one_minute in *; lra.
Qed.

(** While the loop is waiting the clock is at most an hour past the
    latest recorded instant, and one more sleep adds at most 60.1 s. *)
Lemma wait_loop_clock_bound (fuel : nat) (w : world) (latest : Q) :
  1 <= requests_per_minute (self w) ->
  1 <= requests_per_hour (self w) ->
  Forall (fun t => (t <= latest)%Q) (minute_requests (self w)) ->
  Forall (fun t => (t <= latest)%Q) (hour_requests (self w)) ->
  (latest <= clock w)%Q ->
  (clock w <= latest + one_hour + one_minute + (1 # 10))%Q ->
  (clock (final (wait_loop fuel w)) <= latest + one_hour + one_minute + (1 # 10))%Q.
Proof.
  revert w. induction fuel as [|fuel IH]; intros w Hrpm Hrph Hm Hh Hlate Hclock;
    cbn [wait_loop]; [exact Hclock|].
  destruct (Qlt_le_dec (latest + one_hour) (clock w)) as [Hpast|Hnear].
  - (* everything is older than an hour: the test succeeds *)
    unfold _can_make_request, _clean_old_requests. simpl.
    rewrite !popleft_while_older_all.
    + assert (E1 : (0 <? requests_per_minute (self w)) = true) by (apply Z.ltb_lt; lia).
      assert (E2 : (0 <? requests_per_hour (self w)) = true) by (apply Z.ltb_lt; lia).
      simpl. change (Z.of_nat 0) with 0. rewrite E1, E2. simpl. exact Hclock.
    + eapply Forall_impl; [exact Hh|]. intros t Ht. simpl in Ht. lra.
    + eapply Forall_impl; [exact Hm|]. unfold one_minute, one_hour in *.
      intros t Ht. simpl in Ht. lra.
  - pose proof (can_make_request_evolves w) as Hcan.
    pose proof (can_make_request_snd w) as E1.
    destruct (_can_make_request w) as [can w1]. simpl in Hcan, E1.
    destruct can; [simpl; subst w1; exact Hclock|].
    assert (Hc1 : clock w1 = clock w) by (by subst w1).
    pose proof (get_wait_time_evolves w1) as Hget.
    pose proof (get_wait_time_nonneg w1) as Hnn.
    pose proof (get_wait_time_snd w1) as E2.
    pose proof (get_wait_time_at_most_minute w1) as Hle.
    destruct (_get_wait_time w1) as [wait_time w2]. simpl in Hget, Hnn, E2, Hle.
    assert (Hc2 : clock w2 = clock w) by (subst w2; exact Hc1).
    pose proof (evolves_trans _ _ _ Hcan Hget) as Hev.
    destruct Hcan as [_ _ _ (dm1 & Em1 & _) _ _].
    assert (Hwait : (wait_time <= one_minute)%Q).
    { apply Hle. rewrite Em1 in Hm. apply Forall_app in Hm as [_ Hm].
      eapply Forall_impl; [exact Hm|]. intros t Ht. simpl in Ht. rewrite Hc1. lra. }
    unfold one_minute in Hwait.
    destruct (Qltb 0 wait_time) eqn:Epos.
    + rewrite time_sleep_ok by lra.
      set (w3 := mk_world (self w2) (clock w2 + (wait_time + (1 # 10)))%Q _).
      assert (Hev3 : evolves w (set_self w3 (_clean_old_requests (clock w3) (self w3)))).
      { refine (evolves_trans _ _ _ Hev (evolves_trans _ _ _ _ (clean_evolves w3))).
        apply sleep_evolves. lra. }
      destruct Hev3 as [(c1 & c2 & _) _ _ (dm & Em & _) (dh & Eh & _) _].
      apply IH.
      * rewrite c1. exact Hrpm.
      * rewrite c2. exact Hrph.
      * rewrite Em in Hm. by apply Forall_app in Hm as [_ Hm].
      * rewrite Eh in Hh. by apply Forall_app in Hh as [_ Hh].
      * simpl. rewrite Hc2. lra.
      * simpl. rewrite Hc2. unfold one_minute. lra.
    + rewrite time_sleep_ok by lra.
      destruct Hev as [(c1 & c2 & _) _ _ (dm & Em & _) (dh & Eh & _) _].
      apply IH; simpl.
      * rewrite c1. exact Hrpm.
      * rewrite c2. exact Hrph.
      * rewrite Em in Hm. by apply Forall_app in Hm as [_ Hm].
      * rewrite Eh in Hh. by apply Forall_app in Hh as [_ Hh].
      * rewrite Hc2. lra.
      * rewrite Hc2. unfold one_minute. lra.
Qed.

(** X5. With limits of at least one and no instant of the future in its
    windows, [wait_if_needed] always returns, and the caller has waited
    at most an hour, a minute and a tenth of a second. *)
Theorem wait_is_bounded (w : world) :
  ready w ->
  exists w',
    wait_if_needed admission_fuel w = Done (Ok tt) w' /\
    (clock w <= clock w')%Q /\
    (clock w' <= clock w + one_hour + one_minute + (1 # 10))%Q.
Proof.
  intros Hready.
  destruct (wait_if_needed_returns w Hready) as (w' & Hrun & Had & _).
  exists w'. split; [exact Hrun|]. split; [by destruct Had|].
  destruct Hready as [R1 R2 L Rm Rh].
  pose proof (wait_loop_clock_bound admission_fuel (acquire w) (clock w)
                R1 R2 Rm Rh (Qle_refl _)) as Hbound.
  revert Hrun. unfold wait_if_needed. rewrite L.
  destruct (wait_loop admission_fuel (acquire w)) as [[[]|e] w1|w1]; try discriminate.
  intros [= <-]. simpl in *. apply Hbound. unfold one_hour, one_minute. lra.
Qed.

Lemma wait_is_bounded_witness :
  let w := mk_world (mk_limiter 1 1500 5 1 [0%Q] [0%Q] false) 10 [] in
  exists w',
    wait_if_needed admission_fuel w = Done (Ok tt) w' /\
    (clock w' <= 10 + one_hour + one_minute + (1 # 10))%Q.
Proof.
  intros w.
  assert (Hready : ready w).
  { constructor; simpl; try lia; try reflexivity; repeat constructor; discriminate. }
  destruct (wait_is_bounded w Hready) as (w' & Hrun & _ & Hle).
  exists w'. split; [exact Hrun | exact Hle].
Defined.

Lemma popleft_while_older_idem (bound : Q) (q : list Q) :
  popleft_while_older bound (popleft_while_older bound q)
  = popleft_while_older bound q.
Proof.
  destruct (popleft_while_older bound q) as [|t r] eqn:E; [reflexivity|].
  apply popleft_while_older_head in E. apply Qltb_false in E.
  simpl. by rewrite E.
Qed.

Lemma popleft_past_head (bound oldest : Q) (rest dropped q : list Q) :
  oldest :: rest = dropped ++ q ->
  (oldest < bound)%Q ->
  (length (popleft_while_older bound q) <= length rest)%nat.
Proof.
  intros E Hold. destruct dropped as [|d dropped]; simpl in E.
  - subst q. simpl. apply Qltb_true in Hold. rewrite Hold.
    apply popleft_while_older_length.
  - injection E as _ ->. rewrite length_app.
    pose proof (popleft_while_older_length bound q). lia.
Qed.

Lemma wait_loop_one_exits (x : world) :
  Z.of_nat (length (popleft_while_older (clock x - one_minute)
                      (minute_requests (self x)))) < requests_per_minute (self x) ->
  Z.of_nat (length (popleft_while_older (clock x - one_hour)
                      (hour_requests (self x)))) < requests_per_hour (self x) ->
  wait_loop 1 x
  = Done (Ok tt) (set_self x (_clean_old_requests (clock x) (self x))).
Proof.
  intros Hm Hh. cbn [wait_loop]. unfold _can_make_request. simpl.
  apply Z.ltb_lt in Hm, Hh. by rewrite Hm, Hh.
Qed.

(** X6. When only the minute limit is in the way (the hour window has
    room and the minute window holds no more than its limit), one sleep
    is enough: [wait_if_needed] returns after at most one sleep, of at
    most 60.1 s, so the caller is admitted within 60.1 s. *)
Theorem minute_limit_costs_one_sleep (w : world) :
  lock_held (self w) = false ->
  1 <= requests_per_minute (self w) ->
  Z.of_nat (length (minute_requests (self w))) <= requests_per_minute (self w) ->
  Z.of_nat (length (hour_requests (self w))) < requests_per_hour (self w) ->
  Forall (fun t => (t <= clock w)%Q) (minute_requests (self w)) ->
  exists w' ds,
    wait_if_needed 2 w = Done (Ok tt) w' /\
    sleeps Admission (trace w') = sleeps Admission (trace w) ++ ds /\
    (length ds <= 1)%nat /\
    (clock w' == clock w + total ds)%Q /\
    (clock w' <= clock w + one_minute + (1 # 10))%Q.
Proof.
  intros Hlock Hrpm Hm Hh Hpast.
  unfold wait_if_needed. rewrite Hlock.
  change (wait_loop 2 (acquire w)) with
    (let (can, w1) := _can_make_request (acquire w) in
     if can then Done (Ok tt) w1
     else
       let (wait_time, w2) := _get_wait_time w1 in
       if Qltb 0 wait_time
       then
         match time_sleep Admission (wait_time + (1 # 10))%Q w2 with
         | Raise e => Done (Raise e) w2
         | Ok w3 =>
             wait_loop 1 (set_self w3 (_clean_old_requests (clock w3) (self w3)))
         end
       else
         match time_sleep Admission (1 # 10)%Q w2 with
         | Raise e => Done (Raise e) w2
         | Ok w3 => wait_loop 1 w3
         end).
  set (w0 := acquire w).
  set (m1 := popleft_while_older (clock w - one_minute) (minute_requests (self w))).
  set (h1 := popleft_while_older (clock w - one_hour) (hour_requests (self w))).
  pose proof (popleft_while_older_length (clock w - one_minute) (minute_requests (self w)))
    as Lm1. fold m1 in Lm1.
  pose proof (popleft_while_older_length (clock w - one_hour) (hour_requests (self w)))
    as Lh1. fold h1 in Lh1.
  assert (Ecan : _can_make_request w0
                 = ((Z.of_nat (length m1) <? requests_per_minute (self w)) &&
                    (Z.of_nat (length h1) <? requests_per_hour (self w)),
                    set_self w0 (_clean_old_requests (clock w) (self w0)))) by reflexivity.
  rewrite Ecan. clear Ecan.
  replace (Z.of_nat (length h1) <? requests_per_hour (self w)) with true
    by (symmetry; apply Z.ltb_lt; lia).
  rewrite andb_true_r.
  destruct (Z.of_nat (length m1) <? requests_per_minute (self w)) eqn:Efull.
  { (* room at once *)
    eexists. exists []. split; [reflexivity|]. simpl.
    rewrite !sleeps_app. simpl. rewrite !app_nil_r.
    repeat split; [lia | unfold total; simpl; lra | unfold one_minute; lra]. }
  apply Z.ltb_ge in Efull.
  set (w1 := set_self w0 (_clean_old_requests (clock w) (self w0))).
  destruct m1 as [|oldest rest] eqn:Em1; [simpl in Efull; lia|].
  assert (Hrest : Z.of_nat (length rest) < requests_per_minute (self w)).
  { simpl in Lm1. lia. }
  assert (Hold : (clock w - one_minute <= oldest)%Q /\ (oldest <= clock w)%Q).
  { split; [by apply (popleft_while_older_head _ _ _ _ Em1)|].
    destruct (popleft_while_older_split (clock w - one_minute) (minute_requests (self w)))
      as (dropped & E & _).
    fold m1 in E. rewrite Em1 in E. rewrite E in Hpast.
    apply Forall_app in Hpast as [_ Hpast]. by apply Forall_cons in Hpast as [Ho _]. }
  assert (Eminute1 : minute_requests (self w1) = oldest :: rest) by exact Em1.
  assert (Ewt : fst (_get_wait_time w1) = Qmax 0 (oldest + one_minute - clock w)).
  { unfold _get_wait_time, _clean_old_requests. simpl.
    fold m1. rewrite Em1. rewrite <- Em1. unfold m1.
    rewrite popleft_while_older_idem. fold m1. rewrite Em1. reflexivity. }
  pose proof (get_wait_time_evolves w1) as Hget.
  pose proof (get_wait_time_snd w1) as E2.
  destruct (_get_wait_time w1) as [wait_time w2]. simpl in Ewt, Hget, E2.
  assert (Hc2 : clock w2 = clock w) by (by subst w2).
  assert (Hwt : (oldest + one_minute - clock w <= wait_time)%Q /\ (wait_time <= one_minute)%Q).
  { rewrite Ewt. split; [apply Q.le_max_r | apply Q.max_lub; unfold one_minute; lra]. }
  (* what is needed of the world in which the loop is entered again *)
  assert (Exit : forall (x : world) (d : Q),
            evolves w1 x -> (oldest < clock x - one_minute)%Q ->
            (clock x == clock w + d)%Q -> (d <= one_minute + (1 # 10))%Q ->
            trace x = trace w0 ++ [ESleep Admission d] ->
            exists w' ds,
              match wait_loop 1 x with
              | Diverge w'0 => Diverge w'0
              | Done (Ok _) w4 => Done (Ok tt) (release (record_request (clock w4) w4))
              | Done (Raise e) w'0 => Done (Raise e) (release w'0)
              end = Done (Ok tt) w' /\
              sleeps Admission (trace w') = sleeps Admission (trace w) ++ ds /\
              (length ds <= 1)%nat /\
              (clock w' == clock w + total ds)%Q /\
              (clock w' <= clock w + one_minute + (1 # 10))%Q).
  { intros x d Hev Hgone Hclock Hd Htrace.
    destruct Hev as [(c1 & c2 & _) _ _ (dm & Em & _) (dh & Eh & _) _].
    rewrite wait_loop_one_exits.
    - exists (release (record_request (clock x)
                (set_self x (_clean_old_requests (clock x) (self x))))), [d].
      split; [reflexivity|]. simpl. rewrite Htrace. unfold w0. simpl.
      rewrite !sleeps_app. simpl. rewrite !app_nil_r.
      split; [reflexivity|]. split; [lia|].
      unfold one_minute in *. split; lra.
    - rewrite c1. rewrite Eminute1 in Em.
      pose proof (popleft_past_head _ _ _ _ _ Em Hgone). simpl. lia.
    - rewrite c2. simpl in Eh. fold h1 in Eh.
      pose proof (popleft_while_older_length (clock x - one_hour) (hour_requests (self x))).
      pose proof (f_equal length Eh) as HL. rewrite length_app in HL. simpl. lia. }
  destruct (Qltb 0 wait_time) eqn:Epos.
  - apply Qltb_true in Epos. rewrite time_sleep_ok by lra.
    apply (Exit _ (wait_time + (1 # 10))%Q).
    + refine (evolves_trans _ _ _ Hget (evolves_trans _ _ _ _ (clean_evolves _))).
      apply sleep_evolves. lra.
    + simpl. rewrite Hc2. lra.
    + simpl. rewrite Hc2. reflexivity.
    + lra.
    + simpl. by subst w2.
  - apply Qltb_false in Epos. rewrite time_sleep_ok by lra.
    apply (Exit _ (1 # 10)%Q).
    + refine (evolves_trans _ _ _ Hget _). apply sleep_evolves. lra.
    + simpl. rewrite Hc2. lra.
    + simpl. rewrite Hc2. reflexivity.
    + unfold one_minute. lra.
    + simpl. by subst w2.
Qed.

Lemma minute_limit_costs_one_sleep_witness :
  let w := mk_world (mk_limiter 1 1500 5 1 [0%Q] [0%Q] false) 10 [] in
  exists w' ds,
    wait_if_needed 2 w = Done (Ok tt) w' /\
    sleeps Admission (trace w') = ds /\ (length ds <= 1)%nat.
Proof.
  intros w.
  destruct (minute_limit_costs_one_sleep w) as (w' & ds & Hrun & Hs & Hlen & _).
  - reflexivity.
  - simpl. lia.
  - simpl. lia.
  - simpl. lia.
  - repeat constructor. discriminate.
  - exists w', ds. split; [exact Hrun|]. split; [exact Hs | exact Hlen].
Defined.

(** ** More about retries *)

Lemma wait_admits (fuel : nat) (w : world) :
  match wait_if_needed fuel w with
  | Done _ w1 => admitted (trace w1) = admitted (trace w) ++ [clock w1]
  | Diverge w1 => admitted (trace w1) = admitted (trace w)
  end.
Proof.
  destruct (wait_if_needed fuel w) as [res w1|w1] eqn:E.
  - apply wait_if_needed_done in E as (_ & _ & Had). by apply admission_admitted.
  - apply wait_if_needed_diverge in E as [[_ ->]|(_ & _ & ds & Et)]; [reflexivity|].
    rewrite Et, admitted_app. simpl. rewrite admitted_admission_sleeps.
    by rewrite app_nil_r.
Qed.

Lemma retry_loop_gated (fuel : nat) (func : Z -> result pyval)
  (attempts : list Z) (delay : Q) (w : world) :
  let w' := final (retry_loop fuel func attempts delay w) in
  exists (ts : list Q) (cs : list Z),
    admitted (trace w') = admitted (trace w) ++ ts /\
    calls (trace w') = calls (trace w) ++ cs /\
    length ts = length cs.
Proof.
  revert delay w. induction attempts as [|attempt rest IH]; intros delay w; simpl.
  - exists [], []. by rewrite !app_nil_r.
  - pose proof (wait_admits fuel w) as Ha.
    destruct (wait_quiet fuel w) as (Hc & _ & _).
    destruct (wait_if_needed fuel w) as [res w1|w1] eqn:Ew; simpl in Hc.
    + rewrite (wait_never_raises _ _ _ _ Ew).
      assert (Stop : exists (ts : list Q) (cs : list Z),
                admitted (trace (log (ECall attempt) w1)) = admitted (trace w) ++ ts /\
                calls (trace (log (ECall attempt) w1)) = calls (trace w) ++ cs /\
                length ts = length cs).
      { exists [clock w1], [attempt]. simpl.
        rewrite admitted_app, calls_app, Ha, Hc. simpl. by rewrite app_nil_r. }
      destruct (func attempt) as [v|e]; [exact Stop|].
      destruct (is_rate_limit e && _); [|exact Stop].
      unfold time_sleep. destruct (Qltb delay 0); [exact Stop|].
      match goal with |- context [retry_loop fuel func rest ?d ?w3] =>
        destruct (IH d w3) as (ts & cs & Hts & Hcs & Hlen) end.
      simpl in Hts, Hcs.
      exists (clock w1 :: ts), (attempt :: cs). simpl.
      rewrite Hts, Hcs, !admitted_app, !calls_app, Ha, Hc. simpl.
      rewrite !app_nil_r, <- !app_assoc. simpl. by rewrite Hlen.
    + exists [], []. simpl. rewrite !app_nil_r. by rewrite Ha, Hc.
Qed.

(** X7. Every attempt at the wrapped operation, retries included, goes
    through the admission gate first: in any run of [execute_with_retry],
    finished or not, the number of requests recorded in the windows
    during the run equals the number of calls of the operation. *)
Theorem every_attempt_is_admitted (fuel : nat) (func : Z -> result pyval) (w : world) :
  let w' := final (execute_with_retry fuel func w) in
  exists (ts : list Q) (cs : list Z),
    admitted (trace w') = admitted (trace w) ++ ts /\
    calls (trace w') = calls (trace w) ++ cs /\
    length ts = length cs.
Proof. apply retry_loop_gated. Qed.

Lemma ready_after_call (attempt : Z) (w : world) :
  ready w -> ready (log (ECall attempt) w).
Proof. intros [R1 R2 L Rm Rh]. by constructor. Qed.

Lemma ready_after_sleep (site : sleeper) (d : Q) (w : world) :
  ready w -> (0 <= d)%Q ->
  ready (mk_world (self w) (clock w + d)%Q (trace w ++ [ESleep site d])).
Proof.
  intros [R1 R2 L Rm Rh] Hd. constructor; simpl; try assumption.
  - eapply Forall_impl; [exact Rm|]. intros t Ht. simpl in Ht. lra.
  - eapply Forall_impl; [exact Rh|]. intros t Ht. simpl in Ht. lra.
Qed.

Lemma retry_loop_terminates (func : Z -> result pyval) (attempts : list Z)
  (delay : Q) (w : world) :
  ready w ->
  exists res w',
    retry_loop admission_fuel func attempts delay w = Done res w' /\ ready w'.
Proof.
  revert delay w. induction attempts as [|attempt rest IH]; intros delay w Hready;
    cbn [retry_loop].
  - by exists (Ok VNone), w.
  - destruct (wait_if_needed_returns w Hready) as (w1 & -> & _ & Hr1).
    pose proof (ready_after_call attempt w1 Hr1) as Hr2.
    destruct (func attempt) as [v|e]; [by eexists _, _|].
    destruct (is_rate_limit e && _); [|by eexists _, _].
    unfold time_sleep. destruct (Qltb delay 0) eqn:Ed; [by eexists _, _|].
    apply Qltb_false in Ed. apply IH. by apply ready_after_sleep.
Qed.

(** X8. On a limiter with limits of at least one, [execute_with_retry]
    always comes back, whatever the wrapped operation does: it returns a
    value or raises, and leaves the limiter able to admit again. *)
Theorem execute_with_retry_terminates (func : Z -> result pyval) (w : world) :
  ready w ->
  exists res w',
    execute_with_retry admission_fuel func w = Done res w' /\ ready w'.
Proof. intros Hready. by apply retry_loop_terminates. Qed.

Lemma execute_with_retry_terminates_witness :
  let func := fun k : Z =>
    if k <? 1 then @Raise pyval (mk_exn "ClientError" "429 RESOURCE_EXHAUSTED")
    else Ok (VStr "done") in
  let w := mk_world (mk_limiter 30 1500 5 1 [] [] false) 0 [] in
  exists res w', execute_with_retry admission_fuel func w = Done res w'.
Proof.
  intros func w.
  assert (Hready : ready w) by (constructor; simpl; try constructor; lia).
  destruct (execute_with_retry_terminates func w Hready) as (res & w' & Hrun & _).
  by exists res, w'.
Defined.

(** X9. Transient rate limiting is absorbed: if the first [k] attempts
    raise rate-limit errors and attempt [k] returns, with [k] at most
    [max_retries], the caller gets that value and sees no error; the
    operation was called [k + 1] times, with the [k] first backoff delays
    slept in between. *)
Theorem transient_rate_limit_recovers (func : Z -> result pyval) (w : world)
  (k : nat) (v : pyval) :
  ready w ->
  (0 <= initial_retry_delay (self w))%Q ->
  Z.of_nat k <= max_retries (self w) ->
  (forall j, 0 <= j < Z.of_nat k ->
             exists e, func j = Raise e /\ is_rate_limit e = true) ->
  func (Z.of_nat k) = Ok v ->
  exists w',
    execute_with_retry admission_fuel func w = Done (Ok v) w' /\
    calls (trace w') = calls (trace w) ++ seqZ 0 (Z.of_nat k + 1) /\
    sleeps Backoff (trace w')
    = sleeps Backoff (trace w) ++ backoff_schedule (initial_retry_delay (self w)) k.
Proof.
  intros Hready Hdelay Hk Hfail Hok. unfold execute_with_retry.
  assert (Gen : forall (n : nat) (a : Z) (delay : Q) (w0 : world) (extra : Z),
            ready w0 -> (0 <= delay)%Q -> 0 <= extra ->
            a + Z.of_nat n <= max_retries (self w0) ->
            (forall j, a <= j < a + Z.of_nat n ->
                       exists e, func j = Raise e /\ is_rate_limit e = true) ->
            func (a + Z.of_nat n) = Ok v ->
            exists w',
              retry_loop admission_fuel func (seqZ a (Z.of_nat n + 1 + extra)) delay w0
                = Done (Ok v) w' /\
              calls (trace w') = calls (trace w0) ++ seqZ a (Z.of_nat n + 1) /\
              sleeps Backoff (trace w')
              = sleeps Backoff (trace w0) ++ backoff_schedule delay n).
  { clear. induction n as [|n IH]; intros a delay w0 extra Hready Hdelay Hextra Hmax Hfail Hok.
    - rewrite seqZ_cons by lia. cbn [retry_loop].
      destruct (wait_if_needed_returns w0 Hready) as (w1 & -> & Had & _).
      destruct Had as [_ _ _ _ _ (ds & Et) _ _].
      rewrite Z.add_0_r in Hok. rewrite Hok.
      eexists. split; [reflexivity|]. simpl.
      rewrite Et, !calls_app, !sleeps_app. simpl.
      rewrite !calls_app, !sleeps_app, calls_admission_sleeps, backoff_admission_sleeps.
      simpl. by rewrite !app_nil_r.
    - rewrite seqZ_cons by lia. cbn [retry_loop].
      destruct (wait_if_needed_returns w0 Hready) as (w1 & -> & Had & Hr1).
      destruct Had as [(_ & _ & c3 & _) _ _ _ _ (ds & Et) _ _].
      destruct (Hfail a) as (e & -> & Hrl); [lia|].
      simpl. rewrite c3, Hrl.
      replace (a <? max_retries (self w0)) with true by (symmetry; apply Z.ltb_lt; lia).
      simpl. rewrite time_sleep_ok by exact Hdelay.
      replace (Z.pred (Z.of_nat (S n) + 1 + extra)) with (Z.of_nat n + 1 + extra) by lia.
      match goal with |- context [retry_loop _ func _ ?d ?w3] =>
        destruct (IH (Z.succ a) d w3 extra) as (w' & Hrun & Hcalls & Hsleeps) end.
      + apply (ready_after_sleep Backoff delay (log (ECall a) w1));
          [by apply ready_after_call | exact Hdelay].
      + by apply backoff_delay_nonneg.
      + exact Hextra.
      + simpl. rewrite c3. lia.
      + intros j Hj. apply Hfail. lia.
      + rewrite <- Hok. f_equal. lia.
      + exists w'. split; [exact Hrun|].
        rewrite Hcalls, Hsleeps. simpl.
        rewrite Et, !calls_app, !sleeps_app. simpl.
        rewrite !calls_app, !sleeps_app, calls_admission_sleeps, backoff_admission_sleeps.
        simpl. rewrite !app_nil_r, <- !app_assoc. simpl. split; [|reflexivity].
        f_equal. rewrite (seqZ_cons a) by lia. f_equal. f_equal. lia. }
  replace (max_retries (self w) + 1)
    with (Z.of_nat k + 1 + (max_retries (self w) - Z.of_nat k)) by lia.
  apply Gen; try assumption; lia.
Qed.

Lemma transient_rate_limit_recovers_witness :
  let func := fun k : Z =>
    if k <? 2 then @Raise pyval (mk_exn "ClientError" "429 RESOURCE_EXHAUSTED")
    else Ok (VStr "done") in
  let w := mk_world (mk_limiter 30 1500 5 1 [] [] false) 0 [] in
  exists w',
    execute_with_retry admission_fuel func w = Done (Ok (VStr "done")) w' /\
    calls (trace w') = [0; 1; 2] /\
    sleeps Backoff (trace w') = [1; 2]%Q.
Proof.
  intros func w.
  assert (Hready : ready w) by (constructor; simpl; try constructor; lia).
  destruct (transient_rate_limit_recovers func w 2 (VStr "done") Hready)
    as (w' & Hrun & Hcalls & Hsleeps).
  - discriminate.
  - simpl. lia.
  - intros j Hj. exists (mk_exn "ClientError" "429 RESOURCE_EXHAUSTED").
    unfold func. replace (j <? 2) with true by (symmetry; apply Z.ltb_lt; lia).
    split; reflexivity.
  - reflexivity.
  - exists w'. split; [exact Hrun|]. split; [exact Hcalls | exact Hsleeps].
Defined.

(** ** Configurations the constructor lets through *)

(** X10. With a request limit of zero or less, [execute_with_retry] never
    reaches the wrapped operation: however long it is left to run, it is
    still waiting for admission, with no call made and no request
    recorded. *)
Theorem nonpositive_limit_never_calls (fuel : nat) (func : Z -> result pyval)
  (w : world) :
  requests_per_minute (self w) <= 0 \/ requests_per_hour (self w) <= 0 ->
  0 <= max_retries (self w) ->
  exists w',
    execute_with_retry fuel func w = Diverge w' /\
    calls (trace w') = calls (trace w) /\
    admitted (trace w') = admitted (trace w).
Proof.
  intros Hbad Hmax. unfold execute_with_retry.
  rewrite seqZ_cons by lia. cbn [retry_loop].
  pose proof (wait_admits fuel w) as Ha.
  destruct (wait_quiet fuel w) as (Hc & _ & _).
  destruct (wait_if_needed fuel w) as [res w1|w1] eqn:Ew.
  - exfalso. by apply (wait_if_needed_never_returns fuel w w1 res Hbad).
  - exists w1. split; [reflexivity|]. split; [exact Hc | exact Ha].
Qed.

Lemma nonpositive_limit_never_calls_witness :
  let func := fun _ : Z => Ok (VStr "done") in
  let w := mk_world (mk_limiter 0 1500 5 1 [] [] false) 0 [] in
  exists w', execute_with_retry 100 func w = Diverge w' /\ calls (trace w') = [].
Proof.
  intros func w.
  destruct (nonpositive_limit_never_calls 100 func w) as (w' & Hrun & Hcalls & _).
  - left. simpl. lia.
  - simpl. lia.
  - exists w'. split; [exact Hrun | exact Hcalls].
Defined.

(** X11. With a negative [max_retries] the attempt loop is empty:
    [execute_with_retry] returns [None] at once, without waiting for
    admission and without calling the wrapped operation; the limiter and
    the clock are untouched. *)
Theorem negative_max_retries_returns_None (fuel : nat) (func : Z -> result pyval)
  (w : world) :
  max_retries (self w) < 0 ->
  execute_with_retry fuel func w = Done (Ok VNone) w.
Proof.
  intros Hneg. unfold execute_with_retry. by rewrite seqZ_nil by lia.
Qed.

Lemma negative_max_retries_returns_None_witness :
  let func := fun _ : Z => Ok (VStr "done") in
  let w := mk_world (mk_limiter 30 1500 (-1) 1 [] [] false) 0 [] in
  execute_with_retry 1 func w = Done (Ok VNone) w.
Proof.
  intros func w. apply (negative_max_retries_returns_None 1 func w). simpl. lia.
Defined.

(** X12. With a negative initial delay the first retry fails in
    [time.sleep]: after one rate-limited attempt the caller gets a
    [ValueError] about the sleep length instead of the rate-limit error,
    and the operation is not called again. *)
Theorem negative_delay_replaces_error (func : Z -> result pyval) (w : world)
  (e : exn) :
  ready w ->
  0 < max_retries (self w) ->
  (initial_retry_delay (self w) < 0)%Q ->
  func 0 = Raise e ->
  is_rate_limit e = true ->
  exists w',
    execute_with_retry admission_fuel func w
      = Done (Raise (ValueError "sleep length must be non-negative")) w' /\
    calls (trace w') = calls (trace w) ++ [0].
Proof.
  intros Hready Hmax Hneg Hfunc Hrl. unfold execute_with_retry.
  rewrite seqZ_cons by lia. cbn [retry_loop].
  destruct (wait_if_needed_returns w Hready) as (w1 & -> & Had & _).
  destruct Had as [(_ & _ & c3 & _) _ _ _ _ (ds & Et) _ _].
  rewrite Hfunc. simpl. rewrite c3, Hrl.
  replace (0 <? max_retries (self w)) with true by (symmetry; apply Z.ltb_lt; lia).
  simpl. unfold time_sleep.
  apply Qltb_true in Hneg. rewrite Hneg.
  eexists. split; [reflexivity|]. simpl.
  rewrite Et, !calls_app. simpl. rewrite !calls_app, calls_admission_sleeps.
  simpl. by rewrite !app_nil_r.
Qed.

Lemma negative_delay_replaces_error_witness :
  let e := mk_exn "ClientError" "429 RESOURCE_EXHAUSTED" in
  let func := fun _ : Z => @Raise pyval e in
  let w := mk_world (mk_limiter 30 1500 5 (-1) [] [] false) 0 [] in
  exists w',
    execute_with_retry admission_fuel func w
      = Done (Raise (ValueError "sleep length must be non-negative")) w' /\
    calls (trace w') = [0].
Proof.
  intros e func w.
  assert (Hready : ready w) by (constructor; simpl; try constructor; lia).
  destruct (negative_delay_replaces_error func w e Hready) as (w' & Hrun & Hcalls).
  - simpl. lia.
  - reflexivity.
  - reflexivity.
  - reflexivity.
  - exists w'. split; [exact Hrun | exact Hcalls].
Defined.

(** ** Waiting on the hour limit *)

Lemma wait_loop_polls (fuel : nat) (w : world) :
  minute_requests (self w) = [] ->
  exists ds,
    trace (final (wait_loop fuel w)) = trace w ++ map (ESleep Admission) ds /\
    Forall (fun d => d = (1 # 10)%Q) ds /\
    (clock (final (wait_loop fuel w)) == clock w + total ds)%Q.
Proof.
  revert w. induction fuel as [|fuel IH]; intros w Hempty; cbn [wait_loop].
  - exists []. simpl. rewrite app_nil_r. split; [reflexivity|].
    split; [constructor | unfold total; simpl; lra].
  - unfold _can_make_request, _clean_old_requests. rewrite Hempty. simpl.
    destruct (_ && _).
    + exists []. simpl. rewrite app_nil_r. split; [reflexivity|].
      split; [constructor | unfold total; simpl; lra].
    + unfold _get_wait_time, _clean_old_requests. simpl.
      match goal with |- context [wait_loop fuel ?w3] =>
        destruct (IH w3) as (ds & Ht & Hall & Hc); [reflexivity|] end.
      exists ((1 # 10)%Q :: ds). simpl in *.
      rewrite Ht, <- app_assoc. split; [reflexivity|].
      split; [by constructor|]. rewrite Hc. unfold total. simpl. lra.
Qed.

(** X13. A caller held back by the hour limit alone polls: when the
    minute window is empty, every sleep of [wait_if_needed] lasts exactly
    0.1 s (the limiter does not compute when the oldest hour entry
    expires), and the admission instant is the clock reading on entry
    plus a tenth of a second per sleep. *)
Theorem hour_limit_is_polled (fuel : nat) (w : world) :
  minute_requests (self w) = [] ->
  exists ds,
    sleeps Admission (trace (final (wait_if_needed fuel w)))
    = sleeps Admission (trace w) ++ ds /\
    Forall (fun d => d = (1 # 10)%Q) ds /\
    (clock (final (wait_if_needed fuel w)) == clock w + total ds)%Q.
Proof.
  intros Hempty. unfold wait_if_needed.
  destruct (lock_held (self w)).
  { exists []. simpl. rewrite app_nil_r. split; [reflexivity|].
    split; [constructor | unfold total; simpl; lra]. }
  destruct (wait_loop_polls fuel (acquire w) Hempty) as (ds & Ht & Hall & Hc).
  assert (Hs : forall ds : list Q, sleeps Admission (map (ESleep Admission) ds) = ds).
  { clear. induction ds as [|d ds IH]; simpl; congruence. }
  exists ds.
  destruct (wait_loop fuel (acquire w)) as [[[]|e] w1|w1]; simpl in *;
    rewrite ?sleeps_app, Ht, !sleeps_app, Hs; simpl; rewrite ?app_nil_r;
    (split; [reflexivity|]; split; [exact Hall | exact Hc]).
Qed.

Lemma hour_limit_is_polled_witness :
  let w := mk_world (mk_limiter 30 1 5 1 [] [0%Q] false) (359995 # 100) [] in
  exists ds,
    sleeps Admission (trace (final (wait_if_needed 3 w))) = ds /\
    Forall (fun d => d = (1 # 10)%Q) ds.
Proof.
  intros w.
  destruct (hour_limit_is_polled 3 w) as (ds & Hs & Hall & _).
  - reflexivity.
  - exists ds. split; [exact Hs | exact Hall].
Defined.

End LimiterMore.

(* ===================================================================== *)
(** * More about the scorer *)
(* ===================================================================== *)

Module ScorerMore.
Import PyStr PriorityScorer ScorerFacts.

Section Rescoring.
Variable fromiso : string -> option datetime.
Variable clk : PyTime.clock.

Lemma scored_as_again (c : gmap string pyval) (p st a po : Z) :
  scored_as (scored_as c p st a po) p st a po = scored_as c p st a po.
Proof.
  unfold scored_as. apply map_eq. intros k.
  rewrite !lookup_insert. repeat case_decide; congruence.
Qed.

Lemma dict_get_scored_as (c : gmap string pyval) (p st a po : Z)
  (key : string) (default : pyval) :
  key <> "priority_score" -> key <> "priority_breakdown" ->
  dict_get (scored_as c p st a po) key default = dict_get c key default.
Proof.
  intros H1 H2. unfold dict_get. by rewrite scored_as_keeps_fields.
Qed.

Lemma rescoring_fixed (c s : gmap string pyval) :
  score_complaint fromiso clk c = Ok s -> score_complaint fromiso clk s = Ok s.
Proof.
  intros H.
  destruct (score_complaint_inv fromiso clk c s H) as (pr & stt & po & Hp & Hs & Hpo & ->).
  rewrite (score_complaint_ok fromiso clk _ pr stt po).
  - rewrite dict_get_scored_as by discriminate. by rewrite scored_as_again.
  - by rewrite dict_get_scored_as by discriminate.
  - by rewrite dict_get_scored_as by discriminate.
  - by rewrite dict_get_scored_as by discriminate.
Qed.

(** X14. Scoring is idempotent: scoring an already scored complaint (at
    the same clock reading) gives back the very same record, so passing
    scored complaints to code that scores again changes nothing. *)
Theorem score_complaint_idempotent (c s : gmap string pyval) :
  score_complaint fromiso clk c = Ok s ->
  score_complaint fromiso clk s = Ok s.
Proof. apply rescoring_fixed. Qed.

(** X15. Scoring leaves the complaint's own fields alone: every key other
    than ['priority_score'] and ['priority_breakdown'] has in the result
    the value it had in the input (or none), and those two keys are set
    whatever the input held under them. *)
Theorem score_complaint_keeps_fields (c s : gmap string pyval) :
  score_complaint fromiso clk c = Ok s ->
  (forall key, key <> "priority_score" -> key <> "priority_breakdown" ->
               s !! key = c !! key) /\
  (exists total, s !! "priority_score" = Some (VInt total) /\
                 breakdown s "total" = Some (VInt total)) /\
  dom s = dom c ∪ {["priority_score"; "priority_breakdown"]}.
Proof.
  intros H.
  destruct (score_complaint_sum fromiso clk c s H)
    as (p & st & a & po & -> & _ & Ht & _).
  split; [intros key H1 H2; by apply scored_as_keeps_fields|].
  split.
  - eexists. split; [exact Ht|]. apply scored_as_breakdown.
  - unfold scored_as. rewrite !dom_insert_L. apply set_eq. intros x.
    rewrite !elem_of_union, !elem_of_singleton. tauto.
Qed.

End Rescoring.

Lemma score_complaint_idempotent_witness :
  let clk := mk_clock (inject_Z 1767340800) 0 in
  let c := complaint_of "urgent" "escalated" 500 "2026-01-01T08:00:00Z" in
  score_complaint IsoFormat.fromisoformat clk (scored_as c 100 50 5 40)
  = Ok (scored_as c 100 50 5 40).
Proof.
  intros clk c.
  apply (score_complaint_idempotent IsoFormat.fromisoformat clk c).
  apply (score_complaint_ok IsoFormat.fromisoformat clk c "urgent" "escalated" 40);
    reflexivity.
Defined.

Lemma score_complaint_keeps_fields_witness :
  let clk := mk_clock (inject_Z 1767340800) 0 in
  let c := <["location" := VStr "Ward 5"]>
           (complaint_of "urgent" "escalated" 500 "2026-01-01T08:00:00Z") in
  scored_as c 100 50 5 40 !! "location" = Some (VStr "Ward 5").
Proof.
  intros clk c.
  destruct (score_complaint_keeps_fields IsoFormat.fromisoformat clk c
              (scored_as c 100 50 5 40)) as (Hkeep & _).
  - apply (score_complaint_ok IsoFormat.fromisoformat clk c "urgent" "escalated" 40);
      reflexivity.
  - rewrite Hkeep by discriminate. reflexivity.
Defined.

(** ** Ranking *)

Lemma days_monotone (td1 td2 : Q) : (td1 <= td2)%Q -> days td1 <= days td2.
Proof.
  intros H. unfold days. apply Qfloor_resp_le.
  unfold Qdiv. apply Qmult_le_compat_r; [exact H | discriminate].
Qed.

Lemma population_score_int (n : Z) :
  calculate_population_score (VInt n) = Ok (if 0 <? n then Z.min (n * 2) 40 else 0).
Proof.
  unfold calculate_population_score. simpl.
  destruct (n =? 0) eqn:E0; simpl.
  - apply Z.eqb_eq in E0. subst n. reflexivity.
  - destruct (0 <? n); reflexivity.
Qed.

(** X16. The ranking follows its inputs: with everything else equal, a
    complaint that affects more people never scores lower, and of two
    parseable creation instants the earlier one never gets the lower age
    score. *)
Theorem score_is_monotone (fromiso : string -> option datetime) (clk : PyTime.clock) :
  (forall (c s s' : gmap string pyval) (n m : Z),
     n <= m ->
     score_complaint fromiso clk (<["affected_people" := VInt n]> c) = Ok s ->
     score_complaint fromiso clk (<["affected_people" := VInt m]> c) = Ok s' ->
     sort_key s <= sort_key s') /\
  (forall (t1 t2 : string) (d1 d2 : datetime),
     fromiso (replace_char "Z" "+00:00" t1) = Some d1 ->
     fromiso (replace_char "Z" "+00:00" t2) = Some d2 ->
     (seconds_since clk d1 <= seconds_since clk d2)%Q ->
     calculate_age_score fromiso clk (VStr t1)
     <= calculate_age_score fromiso clk (VStr t2)).
Proof.
  split.
  - intros c s s' n m Hnm Hs Hs'.
    destruct (score_complaint_inv _ _ _ _ Hs) as (pr & stt & po & Hp & Hst & Hpo & ->).
    destruct (score_complaint_inv _ _ _ _ Hs') as (pr' & stt' & po' & Hp' & Hst' & Hpo' & ->).
    rewrite !scored_as_sort_key.
    unfold dict_get in *.
    rewrite lookup_insert_ne in Hp, Hp', Hst, Hst' by discriminate.
    rewrite lookup_insert_eq in Hpo, Hpo'.
    rewrite !lookup_insert_ne by discriminate.
    rewrite Hp in Hp'. injection Hp' as <-.
    rewrite Hst in Hst'. injection Hst' as <-.
    rewrite population_score_int in Hpo, Hpo'.
    injection Hpo as <-. injection Hpo' as <-.
    destruct (0 <? n) eqn:En, (0 <? m) eqn:Em;
      try apply Z.ltb_lt in En; try apply Z.ltb_lt in Em;
      try apply Z.ltb_ge in En; try apply Z.ltb_ge in Em; lia.
  - intros t1 t2 d1 d2 H1 H2 Hle.
    rewrite (age_score_parsed _ _ _ _ H1), (age_score_parsed _ _ _ _ H2).
    pose proof (days_monotone _ _ Hle). lia.
Qed.

Lemma category_critical (n : Z) : get_priority_category n = "CRITICAL" -> 200 <= n.
Proof.
  unfold get_priority_category.
  destruct (200 <=? n) eqn:E; [intros _; by apply Z.leb_le|].
  repeat (destruct (_ <=? n)); discriminate.
Qed.

Lemma priority_weight_high (k : string) :
  60 <= dict_get PRIORITY_WEIGHTS k 0 -> k = "urgent" \/ k = "high".
Proof.
  unfold dict_get, PRIORITY_WEIGHTS.
  rewrite lookup_insert. case_decide; [by left|].
  rewrite lookup_insert. case_decide; [by right|].
  repeat (rewrite lookup_insert; case_decide; [simpl; lia|]).
  rewrite lookup_empty. lia.
Qed.

(** X17. Only a complaint filed as 'high' or 'urgent' (in any letter
    case) can come out CRITICAL: status, age and population together add
    at most 140 points, so a missing, 'low', 'medium' or unrecognized
    priority stays below 200 whatever the other fields are. *)
Theorem only_high_or_urgent_is_critical (fromiso : string -> option datetime)
  (clk : PyTime.clock) (c s : gmap string pyval) :
  score_complaint fromiso clk c = Ok s ->
  get_priority_category (sort_key s) = "CRITICAL" ->
  exists p, c !! "priority" = Some (VStr p) /\
            (lower p = "urgent" \/ lower p = "high").
Proof.
  intros Hs Hcat.
  destruct (score_complaint_inv _ _ _ _ Hs) as (pr & stt & po & Hp & Hst & Hpo & ->).
  rewrite scored_as_sort_key in Hcat. apply category_critical in Hcat.
  pose proof (status_weight_range (lower stt)).
  pose proof (population_score_range _ _ Hpo).
  pose proof (age_score_upper fromiso clk (dict_get c "created_at" (VStr ""))).
  assert (Hw : 60 <= dict_get PRIORITY_WEIGHTS (lower pr) 0) by lia.
  unfold dict_get in Hp. destruct (c !! "priority") as [v|] eqn:E.
  - subst v. exists pr. split; [reflexivity|]. by apply priority_weight_high.
  - injection Hp as <-. vm_compute in Hw. by destruct Hw.
Qed.

Lemma only_high_or_urgent_is_critical_witness :
  let clk := mk_clock (inject_Z 1767340800) 0 in
  let c := complaint_of "URGENT" "escalated" 500 "2025-12-03T08:00:00Z" in
  exists p, c !! "priority" = Some (VStr p) /\
            (lower p = "urgent" \/ lower p = "high").
Proof.
  intros clk c.
  apply (only_high_or_urgent_is_critical IsoFormat.fromisoformat clk c
           (scored_as c 100 50 50 40)).
  - apply (score_complaint_ok IsoFormat.fromisoformat clk c "URGENT" "escalated" 40);
      reflexivity.
  - rewrite scored_as_sort_key. reflexivity.
Defined.

Lemma score_is_monotone_witness :
  let clk := mk_clock (inject_Z 1767340800) 0 in
  calculate_age_score IsoFormat.fromisoformat clk (VStr "2026-01-01T08:00:00Z")
  <= calculate_age_score IsoFormat.fromisoformat clk (VStr "2025-12-03T08:00:00Z").
Proof.
  intros clk.
  apply (proj2 (score_is_monotone IsoFormat.fromisoformat clk)
           "2026-01-01T08:00:00Z" "2025-12-03T08:00:00Z"
           (mk_datetime (inject_Z 1767254400) (Some 0%Q))
           (mk_datetime (inject_Z 1764748800) (Some 0%Q)));
    [reflexivity | reflexivity | discriminate].
Defined.

(** ** Sorting what is sorted *)

Lemma sorted_reverse_fixed {A : Type} (key : A -> Z) (l : list A) :
  StronglySorted (descending key) l -> sorted_reverse key l = l.
Proof.
  induction 1 as [|x l Hs IH Hx]; simpl; [reflexivity|].
  rewrite IH. destruct l as [|y l]; [reflexivity|]. simpl.
  apply Forall_cons in Hx as [Hy _]. unfold descending in Hy.
  replace (key x <? key y) with false by (symmetry; apply Z.ltb_ge; lia).
  reflexivity.
Qed.

(** X18. Scoring and sorting is idempotent: feeding the output of
    [score_and_sort_complaints] back in (at the same clock reading)
    returns it unchanged, in the same order. *)
Theorem score_and_sort_idempotent (fromiso : string -> option datetime)
  (clk : PyTime.clock) (complaints out : list (gmap string pyval)) :
  score_and_sort_complaints fromiso clk complaints = Ok out ->
  score_and_sort_complaints fromiso clk out = Ok out.
Proof.
  unfold score_and_sort_complaints.
  destruct (list_comprehension _ complaints) as [scored|] eqn:E; [|discriminate].
  simpl. intros [= <-].
  apply list_comprehension_Forall2 in E.
  assert (Hfix : list_comprehension (score_complaint fromiso clk)
                   (sorted_reverse sort_key scored)
                 = Ok (sorted_reverse sort_key scored)).
  { apply list_comprehension_Forall2.
    apply Forall2_same_length_lookup. split; [reflexivity|].
    intros i x y Hx Hy. rewrite Hx in Hy. injection Hy as <-.
    assert (Hin : x ∈ scored).
    { rewrite <- (sorted_reverse_perm sort_key scored).
      apply list_elem_of_lookup. by exists i. }
    apply list_elem_of_lookup in Hin as [j Hj].
    destruct (Forall2_lookup_r _ _ _ _ _ E Hj) as (c & _ & Hc).
    by apply (rescoring_fixed fromiso clk c). }
  rewrite Hfix. simpl. f_equal.
  apply sorted_reverse_fixed, sorted_reverse_sorted.
Qed.

Lemma score_and_sort_idempotent_witness :
  let clk := mk_clock (inject_Z 1767340800) 0 in
  let c1 := complaint_of "urgent" "escalated" 500 "2026-01-01T08:00:00Z" in
  let c2 := complaint_of "low" "pending" 10 "2026-01-02T08:00:00Z" in
  let out := [scored_as c1 100 50 5 40; scored_as c2 25 20 0 20] in
  score_and_sort_complaints IsoFormat.fromisoformat clk out = Ok out.
Proof.
  intros clk c1 c2 out.
  apply (score_and_sort_idempotent IsoFormat.fromisoformat clk [c2; c1] out).
  unfold score_and_sort_complaints. simpl.
  rewrite (score_complaint_ok IsoFormat.fromisoformat clk c2 "low" "pending" 20)
    by reflexivity.
  rewrite (score_complaint_ok IsoFormat.fromisoformat clk c1 "urgent" "escalated" 40)
    by reflexivity.
  reflexivity.
Defined.

(** ** Time zones *)

Lemma string_app_assoc (a b c : string) :
  (a ++ (b ++ c))%string = ((a ++ b) ++ c)%string.
Proof.
  induction a as [|x a IH]; [reflexivity|].
  change (String x (a ++ (b ++ c)) = String x ((a ++ b) ++ c))%string.
  by rewrite IH.
Qed.

Lemma replace_char_app (old : ascii) (new s1 s2 : string) :
  replace_char old new (s1 ++ s2)
  = (replace_char old new s1 ++ replace_char old new s2)%string.
Proof.
  induction s1 as [|c s1 IH]; [reflexivity|].
  change ((String c s1 ++ s2)%string) with (String c (s1 ++ s2)%string).
  cbn [replace_char]. destruct (Ascii.eqb c old); rewrite IH.
  - apply string_app_assoc.
  - reflexivity.
Qed.

Lemma seconds_since_aware (clk : PyTime.clock) (w off : Q) :
  (seconds_since clk (mk_datetime w (Some off)) == utc_now clk - (w - off))%Q.
Proof. unfold seconds_since. simpl. ring. Qed.

(** X19. The age score reads time zones properly: a trailing [Z] means
    the same as the offset [+00:00]; and two timestamps that carry UTC
    offsets and denote the same instant get the same age score, whatever
    the offsets are and whatever the machine's local zone is. *)
Theorem age_score_ignores_offset_notation (fromiso : string -> option datetime) :
  (forall (clk : PyTime.clock) (s : string),
     calculate_age_score fromiso clk (VStr (s ++ "Z"))
     = calculate_age_score fromiso clk (VStr (s ++ "+00:00"))) /\
  (forall (now local local' : Q) (t1 t2 : string) (w1 w2 o1 o2 : Q),
     fromiso (replace_char "Z" "+00:00" t1) = Some (mk_datetime w1 (Some o1)) ->
     fromiso (replace_char "Z" "+00:00" t2) = Some (mk_datetime w2 (Some o2)) ->
     (w1 - o1 == w2 - o2)%Q ->
     calculate_age_score fromiso (mk_clock now local) (VStr t1)
     = calculate_age_score fromiso (mk_clock now local') (VStr t2)).
Proof.
  split.
  - intros clk s. unfold calculate_age_score, age_score_try. simpl.
    by rewrite !replace_char_app.
  - intros now local local' t1 t2 w1 w2 o1 o2 H1 H2 Hsame.
    rewrite (age_score_parsed _ _ _ _ H1), (age_score_parsed _ _ _ _ H2).
    assert (E : (seconds_since (mk_clock now local) (mk_datetime w1 (Some o1))
                 == seconds_since (mk_clock now local') (mk_datetime w2 (Some o2)))%Q).
    { rewrite !seconds_since_aware. cbn [utc_now]. by rewrite Hsame. }
    unfold days. by rewrite E.
Qed.

Lemma age_score_ignores_offset_notation_witness :
  calculate_age_score IsoFormat.fromisoformat (mk_clock (inject_Z 1767340800) 0)
    (VStr "2026-01-01T08:00:00+00:00")
  = calculate_age_score IsoFormat.fromisoformat (mk_clock (inject_Z 1767340800) 19800)
    (VStr "2026-01-01T13:30:00+05:30").
Proof.
  apply (proj2 (age_score_ignores_offset_notation IsoFormat.fromisoformat)
           (inject_Z 1767340800) 0%Q 19800%Q
           "2026-01-01T08:00:00+00:00" "2026-01-01T13:30:00+05:30"
           (inject_Z 1767254400) (inject_Z 1767274200) 0%Q (inject_Z 19800));
    reflexivity.
Defined.

End ScorerMore.

(* ===================================================================== *)
(** * Properties of the client *)
(* ===================================================================== *)

Module GeminiFacts.
Import PyStr PriorityScorer RateLimiter GeminiConfig.
Import ScorerFacts LimiterFacts ScorerMore LimiterMore.

(** ** Construction *)

(** The client refuses to start without an API key, and only then:
    construction raises [ValueError] exactly when [GEMINI_API_KEY] is
    unset or empty, whatever the limits; otherwise it keeps the key and
    builds a limiter with the given limits, an initial delay of one
    second, empty windows and a free lock. *)
Theorem api_key_decides_construction (environ : gmap string string)
  (rpm rph retries : Z) :
  match GeminiConfig.__init__ environ rpm rph retries with
  | Ok cfg =>
      environ !! "GEMINI_API_KEY" = Some (api_key cfg) /\
      api_key cfg <> "" /\
      model cfg = "gemini-1.5-flash" /\
      rate_limiter cfg = mk_limiter rpm rph retries 1 [] [] false
  | Raise e =>
      e = ValueError missing_key_message /\
      (environ !! "GEMINI_API_KEY" = None \/ environ !! "GEMINI_API_KEY" = Some "")
  end.
Proof.
  unfold GeminiConfig.__init__.
  destruct (environ !! "GEMINI_API_KEY") as [key|]; [|by split; [|left]].
  destruct (String.eqb key "") eqn:E.
  - apply String.eqb_eq in E. subst key. by split; [|right].
  - apply String.eqb_neq in E. simpl. repeat split. exact E.
Qed.

(** ** Errors of [generate_content] *)

Lemma wrapped_classification (e : exn) : is_rate_limit (wrapped e) = is_rate_limit e.
Proof. unfold is_rate_limit, wrapped. simpl. reflexivity. Qed.

(** [generate_content] hands a returned text through unchanged and
    turns whatever escapes the retry loop into a plain [Exception] whose
    message is "Error generating content: " followed by the original
    message: the original class is lost, and the new error is classified
    as a rate-limit error exactly when the original was. *)
Theorem generate_content_wraps_errors (fuel : nat)
  (ask : string -> string -> Z -> result pyval) (model prompt : string) (w : world) :
  match generate_content fuel ask model prompt w with
  | Done (Ok text) w' =>
      execute_with_retry fuel (ask model prompt) w = Done (Ok text) w'
  | Done (Raise e') w' =>
      exists e,
        execute_with_retry fuel (ask model prompt) w = Done (Raise e) w' /\
        e' = wrapped e /\
        exn_class e' = "Exception" /\
        exn_msg e' = ("Error generating content: " ++ exn_msg e)%string /\
        is_rate_limit e' = is_rate_limit e
  | Diverge w' => execute_with_retry fuel (ask model prompt) w = Diverge w'
  end.
Proof.
  unfold generate_content.
  destruct (execute_with_retry fuel (ask model prompt) w) as [[text|e] w'|w'];
    try reflexivity.
  exists e. repeat split.
Qed.

(** X20. The default client under persistent rate limiting: built by
    [get_gemini_client] with a key in the environment, a
    [generate_content] call whose every attempt is refused with a
    rate-limit error makes exactly six calls (attempts 0 to 5), sleeps
    1, 2, 4, 8 and 16 seconds between them, and then raises the wrapped
    error. *)
Theorem default_client_gives_up_after_six_calls (environ : gmap string string)
  (key prompt : string) (ask : string -> string -> Z -> result pyval)
  (e : exn) (t0 : Q) :
  environ !! "GEMINI_API_KEY" = Some key ->
  key <> "" ->
  (forall k, ask "gemini-1.5-flash" prompt k = Raise e) ->
  is_rate_limit e = true ->
  exists cfg w',
    get_gemini_client environ = Ok cfg /\
    generate_content admission_fuel ask (model cfg) prompt
      (mk_world (rate_limiter cfg) t0 []) = Done (Raise (wrapped e)) w' /\
    calls (trace w') = [0; 1; 2; 3; 4; 5] /\
    sleeps Backoff (trace w') = [1; 2; 4; 8; 16]%Q.
Proof.
  intros Hkey Hne Hask Hrl.
  unfold get_gemini_client, GeminiConfig.__init__. rewrite Hkey.
  apply String.eqb_neq in Hne. rewrite Hne. simpl.
  set (w := mk_world (mk_limiter 30 1500 5 1 [] [] false) t0 []).
  assert (Hready : ready w) by (constructor; simpl; try constructor; lia).
  destruct (retry_loop_exhausts (ask "gemini-1.5-flash" prompt) 5 0 1 w Hready)
    as (w' & Hrun & Hcalls & Hsleeps).
  - discriminate.
  - reflexivity.
  - intros k. exists e. by split.
  - exists (mk_config key "gemini-1.5-flash" (mk_limiter 30 1500 5 1 [] [] false)), w'.
    split; [reflexivity|]. split; [|split; [exact Hcalls | exact Hsleeps]].
    change (generate_content admission_fuel ask "gemini-1.5-flash" prompt w
            = Done (Raise (wrapped e)) w').
    unfold generate_content, execute_with_retry.
    change (seqZ 0 (max_retries (self w) + 1)) with (seqZ 0 (Z.of_nat 6)).
    change (initial_retry_delay (self w)) with 1%Q.
    rewrite Hrun, Hask. reflexivity.
Qed.

Lemma default_client_gives_up_after_six_calls_witness :
  let e := mk_exn "ClientError" "429 RESOURCE_EXHAUSTED" in
  let ask := fun (_ _ : string) (_ : Z) => @Raise pyval e in
  let environ : gmap string string := {["GEMINI_API_KEY" := "secret"]} in
  exists cfg w',
    get_gemini_client environ = Ok cfg /\
    generate_content admission_fuel ask (model cfg) "hello"
      (mk_world (rate_limiter cfg) 0 []) = Done (Raise (wrapped e)) w' /\
    calls (trace w') = [0; 1; 2; 3; 4; 5].
Proof.
  intros e ask environ.
  destruct (default_client_gives_up_after_six_calls environ "secret" "hello" ask e 0)
    as (cfg & w' & Hcfg & Hrun & Hcalls & _).
  - reflexivity.
  - discriminate.
  - reflexivity.
  - reflexivity.
  - exists cfg, w'. split; [exact Hcfg|]. split; [exact Hrun | exact Hcalls].
Defined.

(** ** The analysis methods *)

Lemma analyze_raises (fromiso : string -> option datetime) (clk : PyTime.clock)
  (complaint : gmap string pyval) :
  match score_complaint fromiso clk complaint with
  | Ok _ =>
      analyze_complaint_with_priority fromiso clk complaint = Raise no_analyze_complaint
  | Raise e =>
      analyze_complaint_with_priority fromiso clk complaint = Raise e
  end.
Proof.
  unfold analyze_complaint_with_priority.
  destruct (score_complaint fromiso clk complaint) as [s|e] eqn:E; [|reflexivity].
  destruct (score_complaint_sum _ _ _ _ E) as (p & st & a & po & -> & _ & Ht & _).
  unfold priority_score in Ht. simpl. unfold subscript at 1. rewrite Ht. reflexivity.
Qed.

(** X21. [analyze_complaint_with_priority] never returns an analysis: it
    raises the scoring error when scoring the complaint raises, and
    otherwise [AttributeError], because the class has no
    [analyze_complaint] method to call. *)
Theorem analyze_complaint_with_priority_never_returns
  (fromiso : string -> option datetime) (clk : PyTime.clock)
  (complaint : gmap string pyval) :
  match score_complaint fromiso clk complaint with
  | Ok _ =>
      analyze_complaint_with_priority fromiso clk complaint = Raise no_analyze_complaint
  | Raise e =>
      analyze_complaint_with_priority fromiso clk complaint = Raise e
  end.
Proof. apply analyze_raises. Qed.

(** X22. [analyze_multiple_complaints] returns only for the empty list,
    with the empty list.  For any other input it raises: the scoring
    error if scoring a complaint raises, and otherwise [AttributeError]
    at the first, highest-ranked complaint. *)
Theorem analyze_multiple_complaints_outcomes
  (fromiso : string -> option datetime) (clk : PyTime.clock)
  (complaints : list (gmap string pyval)) :
  match score_and_sort_complaints fromiso clk complaints with
  | Raise e => analyze_multiple_complaints fromiso clk complaints = Raise e
  | Ok [] =>
      complaints = [] /\
      analyze_multiple_complaints fromiso clk complaints = Ok []
  | Ok (_ :: _) =>
      complaints <> [] /\
      analyze_multiple_complaints fromiso clk complaints = Raise no_analyze_complaint
  end.
Proof.
  unfold analyze_multiple_complaints.
  destruct (score_and_sort_complaints fromiso clk complaints) as [out|e] eqn:E;
    [|reflexivity].
  revert E. unfold score_and_sort_complaints.
  destruct (list_comprehension _ complaints) as [scored|] eqn:Es; [|discriminate].
  simpl. intros [= <-].
  apply list_comprehension_Forall2 in Es.
  pose proof (Forall2_length _ _ _ Es) as Hlen.
  pose proof (Permutation_length (sorted_reverse_perm sort_key scored)) as Hperm.
  destruct (sorted_reverse sort_key scored) as [|x rest] eqn:Eout; simpl.
  - split; [|reflexivity]. destruct complaints; [reflexivity|]. simpl in *. lia.
  - split; [intros ->; simpl in *; lia|].
    assert (Hin : x ∈ scored).
    { rewrite <- (sorted_reverse_perm sort_key scored), Eout. by left. }
    apply list_elem_of_lookup in Hin as [j Hj].
    destruct (Forall2_lookup_r _ _ _ _ _ Es Hj) as (c & _ & Hc).
    pose proof (rescoring_fixed fromiso clk c x Hc) as Hx.
    pose proof (analyze_raises fromiso clk x) as Hr.
    rewrite Hx in Hr. rewrite Hr. reflexivity.
Qed.

End GeminiFacts.
